(** * Logging: a shallow embedding of [logging.c] / [logging.h]

    The logging subsystem keeps four file-scope variables ([_level],
    [_timestamp_printed], [_destination], [print_mutex]) and writes every
    message with a sequence of [fprintf] calls bracketed by a pthread mutex.

    The embedding threads a [world] (the four variables, the mutex objects
    living on the heap, and the trace of observable library calls) through a
    small result monad.  Three things are outside the repository and are taken
    as parameters: the C formatter behind [vfprintf], the allocator, and the
    clock ([time] followed by [localtime_r]). *)

From Stdlib Require Import ZArith String Ascii List Lia DecimalString.
From stdpp Require Import base option gmap strings list relations.

Local Open Scope Z_scope.

(** ** Constants of [logging.h] *)

Definition LOGGING_LEVEL_NONE : Z := 0.
Definition LOGGING_LEVEL_CRITICAL : Z := 1.
Definition LOGGING_LEVEL_ERROR : Z := 100.
Definition LOGGING_LEVEL_WARNING : Z := 1000.
Definition LOGGING_LEVEL_INFO : Z := 10000.
Definition LOGGING_LEVEL_DEBUG : Z := 50000.
Definition LOGGING_LEVEL_ALL : Z := 65535.

(** The values of an [unsigned short]: the levels passed to the functions
    and kept in [_level] (an argument is converted at the call site, before
    the function runs). *)
Definition is_ushort (z : Z) : Prop := 0 <= z <= 65535.

(** ** Strings *)

Definition newline : ascii := "010"%char.
Definition NL : string := String newline EmptyString.

Fixpoint count_char (c : ascii) (s : string) : nat :=
  match s with
  | EmptyString => O
  | String a s' => ((if Ascii.eqb a c then 1 else 0) + count_char c s')%nat
  end.

Fixpoint zeros (n : nat) : string :=
  match n with
  | O => EmptyString
  | S n' => String "0"%char (zeros n')
  end.

(** ** The two conversions of [printf] used by the code

    [%d] prints an [int] in decimal with a leading minus sign for negative
    values; [%0Nd] pads with zeros after the sign up to a minimum field
    width of [N]. *)

Definition fmt_d (z : Z) : string := NilZero.string_of_int (Z.to_int z).

Definition fmt_0d (width : nat) (z : Z) : string :=
  let digits := NilZero.string_of_uint (N.to_uint (Z.abs_N z)) in
  let sign := if z <? 0 then "-" else EmptyString in
  sign +:+ zeros (width - String.length sign - String.length digits) +:+ digits.

(** ** Pointers, streams, time *)

(** [FILE *] values.  [NULL], [stdout] and [stderr] are pairwise distinct;
    any other stream is named by a number. *)
Inductive FILEp : Type :=
  | NULL
  | stdout
  | stderr
  | stream (n : positive).

Global Instance FILEp_eq_dec : EqDecision FILEp.
Proof. solve_decision. Defined.

(** The fields of [struct tm] read by [timestamp_print]. *)
Record tm : Type := mk_tm {
  tm_sec : Z;
  tm_min : Z;
  tm_hour : Z;
  tm_mday : Z;
  tm_mon : Z;
  tm_year : Z
}.

(** A pthread mutex object of the default kind. *)
Inductive mutex_state : Type :=
  | Unlocked
  | Locked.

(** Observable library calls, in program order. *)
Inductive event : Type :=
  | EvLock (p : Z)
  | EvUnlock (p : Z)
  | EvWrite (f : FILEp) (s : string)
  | EvFlush (f : FILEp).

(** ** The program state

    [print_mutex] is an address ([0] is the null pointer); the mutex objects
    themselves live in [mutexes].  [nallocs] and [ntimes] count the calls of
    [malloc] and [time] made so far and index the corresponding parameters. *)
Record world : Type := mk_world {
  _level : Z;
  _timestamp_printed : Z;
  _destination : FILEp;
  print_mutex : Z;
  mutexes : gmap Z mutex_state;
  nallocs : nat;
  ntimes : nat;
  trace : list event
}.

(** The state right after program load: the static initialisers of
    [logging.c] ([print_mutex] has none, hence is null). *)
Definition initial_world : world :=
  {| _level := 0;
     _timestamp_printed := 1;
     _destination := NULL;
     print_mutex := 0;
     mutexes := ∅;
     nallocs := O;
     ntimes := O;
     trace := [] |}.

Definition with_level (v : Z) (w : world) : world :=
  mk_world v (_timestamp_printed w) (_destination w) (print_mutex w)
           (mutexes w) (nallocs w) (ntimes w) (trace w).

Definition with_timestamp_printed (v : Z) (w : world) : world :=
  mk_world (_level w) v (_destination w) (print_mutex w)
           (mutexes w) (nallocs w) (ntimes w) (trace w).

Definition with_destination (v : FILEp) (w : world) : world :=
  mk_world (_level w) (_timestamp_printed w) v (print_mutex w)
           (mutexes w) (nallocs w) (ntimes w) (trace w).

Definition with_print_mutex (v : Z) (w : world) : world :=
  mk_world (_level w) (_timestamp_printed w) (_destination w) v
           (mutexes w) (nallocs w) (ntimes w) (trace w).

Definition with_mutexes (v : gmap Z mutex_state) (w : world) : world :=
  mk_world (_level w) (_timestamp_printed w) (_destination w) (print_mutex w)
           v (nallocs w) (ntimes w) (trace w).

Definition with_nallocs (v : nat) (w : world) : world :=
  mk_world (_level w) (_timestamp_printed w) (_destination w) (print_mutex w)
           (mutexes w) v (ntimes w) (trace w).

Definition with_ntimes (v : nat) (w : world) : world :=
  mk_world (_level w) (_timestamp_printed w) (_destination w) (print_mutex w)
           (mutexes w) (nallocs w) v (trace w).

Definition emit (e : event) (w : world) : world :=
  mk_world (_level w) (_timestamp_printed w) (_destination w) (print_mutex w)
           (mutexes w) (nallocs w) (ntimes w) (trace w ++ [e]).

(** Everything written to stream [f] so far, in order. *)
Fixpoint written (f : FILEp) (tr : list event) : string :=
  match tr with
  | [] => EmptyString
  | EvWrite g s :: tr' =>
      if decide (g = f) then s +:+ written f tr' else written f tr'
  | _ :: tr' => written f tr'
  end.

(** ** Results of running a function

    [Ok a w]: the call returns [a] in world [w].  [Blocked]: the call waits
    on a mutex that is held (with a single thread of control it waits for
    ever).  [Aborted]: the program ends the process itself ([exit],
    [abort]); no function of [logging.c] does.  [Undefined]: the call has no
    defined behaviour (a null or uninitialised object reached a library
    function). *)
Inductive result (A : Type) : Type :=
  | Ok (a : A) (w : world)
  | Blocked
  | Aborted
  | Undefined.

Arguments Ok {A} a w.
Arguments Blocked {A}.
Arguments Aborted {A}.
Arguments Undefined {A}.

Definition M (A : Type) : Type := world -> result A.

Definition ret {A : Type} (a : A) : M A := fun w => Ok a w.

Definition bind {A B : Type} (m : M A) (k : A -> M B) : M B :=
  fun w =>
    match m w with
    | Ok a w' => k a w'
    | Blocked => Blocked
    | Aborted => Aborted
    | Undefined => Undefined
    end.

Global Instance M_ret : MRet M := @ret.
Global Instance M_bind : MBind M := fun A B k m => bind m k.

Definition gets {A : Type} (f : world -> A) : M A := fun w => Ok (f w) w.
Definition modify (f : world -> world) : M unit := fun w => Ok tt (f w).

(** Variadic arguments of [logging_log]. *)
Inductive va_arg : Type :=
  | VInt (z : Z)
  | VStr (s : string).

Definition va_list : Type := list va_arg.

(** The text of the opening tag once the tier is chosen:
    [fprintf(_destination, "[%d:TIER", level)]. *)
Definition tag_text (level : Z) (tier : string) : string :=
  "[" +:+ fmt_d level +:+ ":" +:+ tier.

(** The text printed by [timestamp_print] for a broken-down time:
    ["%02d.%02d.%04d/%02d:%02d:%02d"] applied to [tm_mday], [tm_mon],
    [tm_year + 1900], [tm_hour], [tm_min], [tm_sec]. *)
Definition timestamp_text (t : tm) : string :=
  fmt_0d 2 (tm_mday t) +:+ "." +:+ fmt_0d 2 (tm_mon t) +:+ "." +:+
  fmt_0d 4 (tm_year t + 1900) +:+ "/" +:+
  fmt_0d 2 (tm_hour t) +:+ ":" +:+ fmt_0d 2 (tm_min t) +:+ ":" +:+
  fmt_0d 2 (tm_sec t).

Section Logging.

(** The text [vfprintf] produces for a format string and its arguments. *)
Variable vformat : string -> va_list -> string.

(** The address returned by the [n]-th call of [malloc] ([0] when the
    allocation fails). *)
Variable malloc_result : nat -> Z.

(** The local time read by the [n]-th call of [time] and broken down by
    [localtime_r] ([None] when [localtime_r] returns a null pointer). *)
Variable localtime_result : nat -> option tm.

(** *** Library calls *)

Definition malloc : M Z :=
  fun w => Ok (malloc_result (nallocs w)) (with_nallocs (S (nallocs w)) w).

Definition free (p : Z) : M unit := mret tt.

(** [time(NULL)], [localtime_r(&ltime, buf)] and the later reads through the
    returned pointer. *)
Definition localtime_r (buf : Z) : M tm :=
  fun w =>
    if decide (buf = 0) then Undefined
    else match localtime_result (ntimes w) with
         | Some t => Ok t (with_ntimes (S (ntimes w)) w)
         | None => Undefined
         end.

Definition fprintf (f : FILEp) (s : string) : M unit :=
  fun w =>
    if decide (f = NULL) then Undefined
    else Ok tt (emit (EvWrite f s) w).

Definition fflush (f : FILEp) : M unit := modify (emit (EvFlush f)).

Definition pthread_mutex_init (p : Z) : M unit :=
  fun w =>
    if decide (p = 0) then Undefined
    else Ok tt (with_mutexes (<[p := Unlocked]> (mutexes w)) w).

Definition pthread_mutex_lock (p : Z) : M unit :=
  fun w =>
    match mutexes w !! p with
    | Some Unlocked =>
        Ok tt (emit (EvLock p)
                 (with_mutexes (<[p := Locked]> (mutexes w)) w))
    | Some Locked => Blocked
    | None => Undefined
    end.

Definition pthread_mutex_unlock (p : Z) : M unit :=
  fun w =>
    match mutexes w !! p with
    | Some Locked =>
        Ok tt (emit (EvUnlock p)
                 (with_mutexes (<[p := Unlocked]> (mutexes w)) w))
    | Some Unlocked => Undefined
    | None => Undefined
    end.

(** *** The functions of [logging.c] *)

Definition logging_init : M unit :=
  modify (with_destination stdout);;
  modify (with_level LOGGING_LEVEL_ALL);;
  p ← malloc;
  modify (with_print_mutex p);;
  m ← gets print_mutex;
  pthread_mutex_init m.

Definition timestamp_print : M unit :=
  buf ← malloc;
  t ← localtime_r buf;
  d ← gets _destination;
  fprintf d (timestamp_text t);;
  free buf.

Definition logging_set_level (level : Z) : M unit :=
  modify (with_level level).

Definition logging_get_level : M Z := gets _level.

Definition logging_set_destination (destination : FILEp) : M unit :=
  if decide (destination ≠ NULL) then modify (with_destination destination)
  else mret tt.

Definition logging_get_destination : M FILEp := gets _destination.

Definition logging_set_timestamp_printed (timestamp_printed : Z) : M unit :=
  modify (with_timestamp_printed timestamp_printed).

(** The branch of [logging_log] that picks the tier label. *)
Definition tier_of (level : Z) : string :=
  if level >=? LOGGING_LEVEL_DEBUG then "DEBUG"
  else if level >=? LOGGING_LEVEL_INFO then "INFO"
  else if level >=? LOGGING_LEVEL_WARNING then "WARNING"
  else if level >=? LOGGING_LEVEL_ERROR then "ERROR"
  else "CRITICAL".

Definition logging_log (module : string) (level : Z) (message : string)
    (arglist : va_list) : M unit :=
  threshold ← gets _level;
  if level <=? threshold then
    m ← gets print_mutex;
    pthread_mutex_lock m;;
    d ← gets _destination;
    fprintf d (tag_text level (tier_of level));;
    flag ← gets _timestamp_printed;
    (if decide (flag ≠ 0) then
       d ← gets _destination;
       fprintf d "@";;
       timestamp_print
     else mret tt);;
    d ← gets _destination;
    fprintf d "] ";;
    d ← gets _destination;
    fprintf d (module +:+ ": ");;
    d ← gets _destination;
    fprintf d (vformat message arglist);;
    d ← gets _destination;
    fprintf d NL;;
    m ← gets print_mutex;
    pthread_mutex_unlock m;;
    d ← gets _destination;
    fflush d
  else mret tt.

Definition logging_aquire_fd (level : Z) : M FILEp :=
  threshold ← gets _level;
  if level <=? threshold then
    logging_log "Logging" level "*** External logging started..." [];;
    m ← gets print_mutex;
    pthread_mutex_lock m;;
    gets _destination
  else mret NULL.

Definition logging_release_fd (level : Z) : M unit :=
  m ← gets print_mutex;
  pthread_mutex_unlock m;;
  logging_log "Logging" level "*** External logging ended..." [].

End Logging.

(** ** Closed forms used by the statements *)

(** The events of one emitted message: [m] is the mutex, [d] the stream and
    [stamp] the broken-down time when the timestamp is printed. *)
Definition log_events (vformat : string -> va_list -> string)
    (m : Z) (d : FILEp) (stamp : option tm)
    (module : string) (level : Z) (message : string) (arglist : va_list)
    : list event :=
  [EvLock m; EvWrite d (tag_text level (tier_of level))] ++
  match stamp with
  | Some t => [EvWrite d "@"; EvWrite d (timestamp_text t)]
  | None => []
  end ++
  [EvWrite d "] "; EvWrite d (module +:+ ": ");
   EvWrite d (vformat message arglist); EvWrite d NL;
   EvUnlock m; EvFlush d].

(** The world after one emitted message. *)
Definition after_log (w : world) (stamp : option tm) (evs : list event)
    : world :=
  let k := match stamp with Some _ => 1%nat | None => O end in
  mk_world (_level w) (_timestamp_printed w) (_destination w) (print_mutex w)
           (mutexes w) (nallocs w + k) (ntimes w + k) (trace w ++ evs).

(** What the timestamp step of the next message will read: [Some None] when
    timestamps are off, [Some (Some t)] when they are on and both the
    allocation and [localtime_r] succeed, [None] otherwise. *)
Definition next_stamp (malloc_result : nat -> Z)
    (localtime_result : nat -> option tm) (w : world) : option (option tm) :=
  if decide (_timestamp_printed w ≠ 0) then
    if decide (malloc_result (nallocs w) = 0) then None
    else match localtime_result (ntimes w) with
         | Some t => Some (Some t)
         | None => None
         end
  else Some None.

(** The logger can write: the destination is set and the mutex designated by
    [print_mutex] is initialised and free. *)
Definition ready (w : world) : Prop :=
  _destination w ≠ NULL ∧ mutexes w !! print_mutex w = Some Unlocked.

(** The complete text of one message. *)
Definition stamp_text (stamp : option tm) : string :=
  match stamp with
  | Some t => "@" +:+ timestamp_text t
  | None => EmptyString
  end.

Definition log_line (vformat : string -> va_list -> string)
    (stamp : option tm)
    (module : string) (level : Z) (message : string) (arglist : va_list)
    : string :=
  tag_text level (tier_of level) +:+ stamp_text stamp +:+ "] " +:+
  module +:+ ": " +:+ vformat message arglist +:+ NL.

(** The world after the mutex designated by [print_mutex] is taken, and
    after it is released. *)
Definition locked (w : world) : world :=
  emit (EvLock (print_mutex w))
    (with_mutexes (<[print_mutex w := Locked]> (mutexes w)) w).

Definition unlocked (w : world) : world :=
  emit (EvUnlock (print_mutex w))
    (with_mutexes (<[print_mutex w := Unlocked]> (mutexes w)) w).

(** ** Threads

    For the interleaving of several threads, [logging_log] is cut at its
    library calls: a thread inside a call is at one of the following program
    points, and every step from one point to the next is atomic (the stream
    functions of the C library lock the stream for the duration of a call). *)

Record call : Type := mk_call {
  c_module : string;
  c_level : Z;
  c_message : string;
  c_arglist : va_list
}.

Inductive pc : Type :=
  | AtTest      (* if(level <= _level) *)
  | AtLock      (* pthread_mutex_lock(print_mutex) *)
  | AtTag       (* fprintf(_destination, "[%d:TIER", level) *)
  | AtFlag      (* if(_timestamp_printed) fprintf(_destination, "@") *)
  | AtStamp     (* timestamp_print() *)
  | AtClose     (* fprintf(_destination, "] ") *)
  | AtModule    (* fprintf(_destination, "%s: ", module) *)
  | AtBody      (* vfprintf(_destination, message, arglist) *)
  | AtNewline   (* fprintf(_destination, "\n") *)
  | AtUnlock    (* pthread_mutex_unlock(print_mutex) *)
  | AtFlush.    (* fflush(_destination) *)

Global Instance pc_eq_dec : EqDecision pc.
Proof. solve_decision. Defined.

Section Threads.

Variable vformat : string -> va_list -> string.
Variable malloc_result : nat -> Z.
Variable localtime_result : nat -> option tm.

(** One step of a thread inside [logging_log]; the result is the next
    program point, or [None] when the call returns. *)
Definition log_step (c : call) (p : pc) : M (option pc) :=
  match p with
  | AtTest =>
      threshold ← gets _level;
      mret (if c_level c <=? threshold then Some AtLock else None)
  | AtLock =>
      m ← gets print_mutex;
      pthread_mutex_lock m;;
      mret (Some AtTag)
  | AtTag =>
      d ← gets _destination;
      fprintf d (tag_text (c_level c) (tier_of (c_level c)));;
      mret (Some AtFlag)
  | AtFlag =>
      flag ← gets _timestamp_printed;
      if decide (flag ≠ 0) then
        d ← gets _destination;
        fprintf d "@";;
        mret (Some AtStamp)
      else mret (Some AtClose)
  | AtStamp =>
      timestamp_print malloc_result localtime_result;;
      mret (Some AtClose)
  | AtClose =>
      d ← gets _destination;
      fprintf d "] ";;
      mret (Some AtModule)
  | AtModule =>
      d ← gets _destination;
      fprintf d (c_module c +:+ ": ");;
      mret (Some AtBody)
  | AtBody =>
      d ← gets _destination;
      fprintf d (vformat (c_message c) (c_arglist c));;
      mret (Some AtNewline)
  | AtNewline =>
      d ← gets _destination;
      fprintf d NL;;
      mret (Some AtUnlock)
  | AtUnlock =>
      m ← gets print_mutex;
      pthread_mutex_unlock m;;
      mret (Some AtFlush)
  | AtFlush =>
      d ← gets _destination;
      fflush d;;
      mret None
  end.

(** A single thread running a call to its end. *)
Fixpoint run_call (fuel : nat) (c : call) (p : pc) : M unit :=
  match fuel with
  | O => mret tt
  | S fuel' =>
      next ← log_step c p;
      match next with
      | Some p' => run_call fuel' c p'
      | None => mret tt
      end
  end.

(** A thread is the list of calls it still has to make together with the
    program point inside the first of them. *)
Definition thread : Type := (list call * pc)%type.

Definition thread_step (t : thread) : M thread :=
  match t with
  | ([], p) => mret ([], p)
  | (c :: cs, p) =>
      next ← log_step c p;
      match next with
      | Some p' => mret (c :: cs, p')
      | None => mret (cs, AtTest)
      end
  end.

Definition finished (t : thread) : Prop := t.1 = [].

(** Interleaving: any thread that still has a call to make and is not
    waiting for the mutex may take the next step. *)
Inductive pool_step : list thread * world -> list thread * world -> Prop :=
  | PoolStep ts1 c cs p ts2 w t' w' :
      thread_step (c :: cs, p) w = Ok t' w' ->
      pool_step (ts1 ++ (c :: cs, p) :: ts2, w) (ts1 ++ t' :: ts2, w').

(** An executable scheduler: [sched] names, step by step, the thread that
    runs next. *)
Fixpoint run_schedule (sched : list nat) (ts : list thread) (w : world)
    : option (list thread * world) :=
  match sched with
  | [] => Some (ts, w)
  | i :: sched' =>
      match ts !! i with
      | Some (c :: cs, p) =>
          match thread_step (c :: cs, p) w with
          | Ok t' w' => run_schedule sched' (<[i := t']> ts) w'
          | _ => None
          end
      | _ => None
      end
  end.

(** The program points between taking and releasing the mutex. *)
Definition holds_lock (t : thread) : bool :=
  match t with
  | ([], _) => false
  | (_ :: _, p) =>
      match p with
      | AtTest | AtLock | AtFlush => false
      | _ => true
      end
  end.

(** What the thread holding the mutex has written of its message so far;
    [stamp] is the time it read, once it is past the timestamp. *)
Definition cs_text (c : call) (p : pc) (stamp : option tm) : string :=
  let tag := tag_text (c_level c) (tier_of (c_level c)) in
  match p with
  | AtTag => EmptyString
  | AtFlag => tag
  | AtStamp => tag +:+ "@"
  | AtClose => tag +:+ stamp_text stamp
  | AtModule => tag +:+ stamp_text stamp +:+ "] "
  | AtBody => tag +:+ stamp_text stamp +:+ "] " +:+ c_module c +:+ ": "
  | AtNewline =>
      tag +:+ stamp_text stamp +:+ "] " +:+ c_module c +:+ ": " +:+
      vformat (c_message c) (c_arglist c)
  | AtUnlock =>
      log_line vformat stamp (c_module c) (c_level c) (c_message c)
               (c_arglist c)
  | _ => EmptyString
  end.

Definition call_line (e : call * option tm) : string :=
  log_line vformat e.2 (c_module e.1) (c_level e.1) (c_message e.1)
           (c_arglist e.1).

Fixpoint concat_lines (ls : list string) : string :=
  match ls with
  | [] => EmptyString
  | l :: ls' => l +:+ concat_lines ls'
  end.

End Threads.

(** ** The invariant of a pool of logging threads *)

(** The calls of a thread whose message is still to be completed: the call in
    progress unless it was filtered out or is already past its unlock, and
    the later calls that pass the threshold. *)
Definition owed (threshold : Z) (t : thread) : list call :=
  match t with
  | ([], _) => []
  | (c :: cs, p) =>
      match p with
      | AtTest => if decide (c_level c <= threshold) then [c] else []
      | AtFlush => []
      | _ => [c]
      end ++ filter (fun c' => c_level c' <= threshold) cs
  end.

Definition all_owed (threshold : Z) (ts : list thread) : list call :=
  concat (map (owed threshold) ts).

Definition holders (ts : list thread) : list thread :=
  filter (fun t => holds_lock t = true) ts.

(** The time a thread inside the critical section has read agrees with the
    timestamp flag. *)
Definition stamp_fits (flag : Z) (p : pc) (stamp : option tm) : Prop :=
  match p with
  | AtStamp => flag ≠ 0
  | AtClose | AtModule | AtBody | AtNewline | AtUnlock =>
      is_Some stamp <-> flag ≠ 0
  | _ => True
  end.

Definition thread_text (vformat : string -> va_list -> string)
    (t : thread) (stamp : option tm) : string :=
  match t with
  | (c :: _, p) => cs_text vformat c p stamp
  | ([], _) => EmptyString
  end.

(** The mutex and the unfinished text against the threads [hs] inside the
    critical section: nobody inside, the mutex free and no unfinished text;
    or one thread inside, the mutex held and the unfinished text that
    thread's. *)
Definition lock_state (vformat : string -> va_list -> string) (flag : Z)
    (hs : list thread) (m : option mutex_state) (partial : string) : Prop :=
  match hs with
  | [] => m = Some Unlocked ∧ partial = EmptyString
  | [t] =>
      m = Some Locked ∧
      exists stamp,
        stamp_fits flag t.2 stamp ∧ partial = thread_text vformat t stamp
  | _ => False
  end.

(** The four configuration variables are the same in both worlds. *)
Definition same_config (w w' : world) : Prop :=
  _level w' = _level w ∧
  _timestamp_printed w' = _timestamp_printed w ∧
  _destination w' = _destination w ∧
  print_mutex w' = print_mutex w.

(** Reached from [w0] with threads [ts0]: the configuration is that of
    [w0]; the destination holds what it held, then the complete messages
    [emitted] one after the other, then the part [partial] written so far by
    the one thread inside the critical section, if any. *)
Definition pool_inv (vformat : string -> va_list -> string)
    (w0 : world) (ts0 : list thread) (ts : list thread) (w : world)
    : Prop :=
  same_config w0 w ∧
  exists (emitted : list (call * option tm)) (partial : string),
    written (_destination w0) (trace w)
    = written (_destination w0) (trace w0) +:+
      concat_lines (map (call_line vformat) emitted) +:+ partial ∧
    Forall (fun e => is_Some e.2 <-> _timestamp_printed w0 ≠ 0) emitted ∧
    map fst emitted ++ all_owed (_level w0) ts
    ≡ₚ all_owed (_level w0) ts0 ∧
    lock_state vformat (_timestamp_printed w0) (holders ts)
      (mutexes w !! print_mutex w0) partial.

(** ** Vocabulary of the specification *)

(** The named tiers with their lower bounds. *)
Definition tier_bounds : list (string * Z) :=
  [("CRITICAL", 0); ("ERROR", 100); ("WARNING", 1000); ("INFO", 10000);
   ("DEBUG", 50000)].

(** Decimal digits and fixed-width fields. *)
Definition digit (n : Z) : ascii := ascii_of_nat (48 + Z.to_nat n).

Definition two_digits (n : Z) : string :=
  String (digit (n / 10)) (String (digit (n mod 10)) EmptyString).

Definition four_digits (n : Z) : string :=
  String (digit (n / 1000))
    (String (digit (n / 100 mod 10))
       (String (digit (n / 10 mod 10))
          (String (digit (n mod 10)) EmptyString))).

(** A broken-down time as the calendar functions deliver it, with a year
    that fits four digits: [tm_mon] counts from 0 (January) to 11. *)
Definition valid_tm (t : tm) : Prop :=
  1 <= tm_mday t <= 31 ∧ 0 <= tm_mon t <= 11 ∧
  0 <= tm_year t + 1900 <= 9999 ∧
  0 <= tm_hour t <= 23 ∧ 0 <= tm_min t <= 59 ∧ 0 <= tm_sec t <= 60.

(** The call ends the process with a failure of the program's own making. *)
Definition fails_fatally {A : Type} (r : result A) : Prop := r = Aborted.

(** ** Concrete instances

    A formatter for the conversions [%d], [%s] and [%%], an allocator that
    never fails, a clock stopped at 2 November 2026, 03:04:05, and the world
    right after [logging_init]. *)

Fixpoint sample_format (s : string) (args : va_list) : string :=
  match s with
  | EmptyString => EmptyString
  | String a s' =>
      if Ascii.eqb a "%" then
        match s' with
        | EmptyString => EmptyString
        | String b s'' =>
            if Ascii.eqb b "d" then
              match args with
              | VInt z :: args' => fmt_d z +:+ sample_format s'' args'
              | _ => sample_format s'' args
              end
            else if Ascii.eqb b "s" then
              match args with
              | VStr x :: args' => x +:+ sample_format s'' args'
              | _ => sample_format s'' args
              end
            else String b (sample_format s'' args)
        end
      else String a (sample_format s' args)
  end.

Definition sample_malloc (n : nat) : Z := 4096 + 64 * Z.of_nat n.

Definition failing_malloc (n : nat) : Z := 0.

Definition sample_time (n : nat) : option tm :=
  Some (mk_tm 5 4 3 2 10 126).

Definition sample_world : world :=
  {| _level := 65535;
     _timestamp_printed := 1;
     _destination := stdout;
     print_mutex := 4096;
     mutexes := {[ 4096 := Unlocked ]};
     nallocs := 1;
     ntimes := O;
     trace := [] |}.

(** Two threads with one call each, and a schedule on which thread 0 passes
    its level test, thread 1 then runs its whole call, and thread 0 finishes
    afterwards. *)
Definition sample_pool : list thread :=
  [([mk_call "Net" LOGGING_LEVEL_ERROR "conn failed: %s" [VStr "timeout"]],
    AtTest);
   ([mk_call "Disk" LOGGING_LEVEL_DEBUG "retry %d" [VInt 3]], AtTest)].

Definition sample_schedule : list nat :=
  (0 :: repeat 1 11 ++ repeat 0 10)%nat.

(** ** Shutdown *)

(** [pthread_mutex_destroy]: the object has to be an initialised mutex that
    nobody holds; it is gone afterwards. *)
Definition pthread_mutex_destroy (p : Z) : M unit :=
  fun w =>
    match mutexes w !! p with
    | Some Unlocked => Ok tt (with_mutexes (delete p (mutexes w)) w)
    | Some Locked => Undefined
    | None => Undefined
    end.

(** [fclose]: the call hands back the stream it closed, so that a caller can
    report which streams it closed. *)
Definition fclose (f : FILEp) : M (list FILEp) :=
  fun w => if decide (f = NULL) then Undefined else Ok [f] w.

(** [logging_free]; the value is the list of streams the call closed. *)
Definition logging_free : M (list FILEp) :=
  d ← gets _destination;
  closed ← (if decide (d ≠ NULL ∧ d ≠ stdout ∧ d ≠ stderr)
            then fclose d else mret []);
  m ← gets print_mutex;
  pthread_mutex_destroy m;;
  m ← gets print_mutex;
  free m;;
  mret closed.

(** ** Sequences of calls *)

(** The calls a client can make once the logger is initialised. *)
Inductive api_call : Type :=
  | CallSetLevel (level : Z)
  | CallGetLevel
  | CallSetDestination (destination : FILEp)
  | CallGetDestination
  | CallSetTimestampPrinted (timestamp_printed : Z)
  | CallLog (c : call)
  | CallAquireFd (level : Z)
  | CallReleaseFd (level : Z).

Section Calls.

Variable vformat : string -> va_list -> string.
Variable malloc_result : nat -> Z.
Variable localtime_result : nat -> option tm.

Definition run_api (a : api_call) : M unit :=
  match a with
  | CallSetLevel level => logging_set_level level
  | CallGetLevel => logging_get_level;; mret tt
  | CallSetDestination destination => logging_set_destination destination
  | CallGetDestination => logging_get_destination;; mret tt
  | CallSetTimestampPrinted v => logging_set_timestamp_printed v
  | CallLog c =>
      logging_log vformat malloc_result localtime_result
        (c_module c) (c_level c) (c_message c) (c_arglist c)
  | CallAquireFd level =>
      logging_aquire_fd vformat malloc_result localtime_result level;;
      mret tt
  | CallReleaseFd level =>
      logging_release_fd vformat malloc_result localtime_result level
  end.

Fixpoint run_calls (l : list api_call) : M unit :=
  match l with
  | [] => mret tt
  | a :: l' => run_api a;; run_calls l'
  end.

(** One thread making the calls [cs] one after the other. *)
Fixpoint log_all (cs : list call) : M unit :=
  match cs with
  | [] => mret tt
  | c :: cs' =>
      logging_log vformat malloc_result localtime_result
        (c_module c) (c_level c) (c_message c) (c_arglist c);;
      log_all cs'
  end.

End Calls.

(** The logger is set up: the destination is not null and [print_mutex]
    designates a mutex object. *)
Definition initialised (w : world) : Prop :=
  _destination w ≠ NULL ∧ is_Some (mutexes w !! print_mutex w).

(** From [w] to [w']: [print_mutex] is the same, the same mutex objects
    exist, and a destination that was set is still set. *)
Definition keeps_alive (w w' : world) : Prop :=
  print_mutex w' = print_mutex w ∧
  (forall p, is_Some (mutexes w' !! p) <-> is_Some (mutexes w !! p)) ∧
  (_destination w ≠ NULL -> _destination w' ≠ NULL).

(** Every return of [m] keeps the logger alive. *)
Definition preserves {A : Type} (m : M A) : Prop :=
  forall w a w', m w = Ok a w' -> keeps_alive w w'.

(** ** Termination measure of a pool *)

(** The number of steps a call still takes at most from a program point. *)
Definition pc_rank (p : pc) : nat :=
  match p with
  | AtTest => 11
  | AtLock => 10
  | AtTag => 9
  | AtFlag => 8
  | AtStamp => 7
  | AtClose => 6
  | AtModule => 5
  | AtBody => 4
  | AtNewline => 3
  | AtUnlock => 2
  | AtFlush => 1
  end.

Definition thread_rank (t : thread) : nat :=
  match t with
  | ([], _) => 0
  | (_ :: cs, p) => pc_rank p + 11 * length cs
  end.

Definition pool_rank (ts : list thread) : nat :=
  sum_list (map thread_rank ts).

(** ** The messages of one thread

    The messages the calls [cs] produce when made one after the other with
    threshold [threshold] and timestamp flag [flag], the next clock reading
    being number [n]. *)
Fixpoint lines_of (vformat : string -> va_list -> string)
    (localtime_result : nat -> option tm) (threshold flag : Z) (n : nat)
    (cs : list call) : list string :=
  match cs with
  | [] => []
  | c :: cs' =>
      if decide (c_level c <= threshold) then
        if decide (flag ≠ 0) then
          call_line vformat (c, localtime_result n) ::
          lines_of vformat localtime_result threshold flag (S n) cs'
        else
          call_line vformat (c, None) ::
          lines_of vformat localtime_result threshold flag n cs'
      else lines_of vformat localtime_result threshold flag n cs'
  end.

(** ** Basic facts *)

Lemma append_cons (x : ascii) (a b : string) :
  String x a +:+ b = String x (a +:+ b).
Proof. reflexivity. Qed.

Lemma append_assoc (a b c : string) : (a +:+ b) +:+ c = a +:+ b +:+ c.
Proof.
  induction a as [|x a IH]; [done |].
  by rewrite !append_cons, IH.
Qed.

Lemma append_empty_r (a : string) : a +:+ EmptyString = a.
Proof.
  induction a as [|x a IH]; [done |].
  by rewrite append_cons, IH.
Qed.

Lemma written_app f tr1 tr2 :
  written f (tr1 ++ tr2) = written f tr1 +:+ written f tr2.
Proof.
  induction tr1 as [|e tr1 IH]; [done |].
  destruct e; simpl; try done.
  case_decide; [by rewrite IH, append_assoc | done].
Qed.

(** Record updates are nested deeply after a few statements; they are
    evaluated innermost first. *)
Ltac world_norm :=
  cbv [emit with_level with_timestamp_printed with_destination
       with_print_mutex with_mutexes with_nallocs with_ntimes
       _level _timestamp_printed _destination print_mutex mutexes
       nallocs ntimes trace].

Section LogFacts.
Variable vformat : string -> va_list -> string.
Variable malloc_result : nat -> Z.
Variable localtime_result : nat -> option tm.

Lemma logging_log_emits module level message arglist w stamp :
  level <= _level w ->
  ready w ->
  next_stamp malloc_result localtime_result w = Some stamp ->
  logging_log vformat malloc_result localtime_result module level message
              arglist w
  = Ok tt (after_log w stamp
             (log_events vformat (print_mutex w) (_destination w) stamp
                         module level message arglist)).
Proof.
  intros Hle [Hd Hm] Hs. destruct w as [lv fl d m ms na nt tr].
  simpl in *.
  assert (Hback : <[m:=Unlocked]> (<[m:=Locked]> ms) = ms)
    by (by rewrite insert_insert_eq, insert_id).
  apply Z.leb_le in Hle.
  unfold next_stamp in Hs. simpl in Hs.
  unfold logging_log, timestamp_print, localtime_r, malloc, free,
    pthread_mutex_lock, pthread_mutex_unlock, fprintf, fflush, modify,
    mbind, M_bind, bind, gets, mret, M_ret, ret, log_events, after_log.
  simpl.
  destruct (decide (fl ≠ 0)) as [Hfl|Hfl].
  - destruct (decide (malloc_result na = 0)) as [|Hna]; [done |].
    destruct (localtime_result nt) as [t|] eqn:Hlt; [| done].
    injection Hs as <-.
    repeat (first [ rewrite Hle | rewrite Hm | rewrite Hlt
                  | rewrite lookup_insert_eq
                  | rewrite decide_False by done
                  | rewrite decide_True by done ]; simpl).
    rewrite Hback. world_norm.
    rewrite <- !app_assoc. simpl.
    by rewrite !Nat.add_1_r.
  - injection Hs as <-.
    repeat (first [ rewrite Hle | rewrite Hm
                  | rewrite lookup_insert_eq
                  | rewrite decide_False by done
                  | rewrite decide_True by done ]; simpl).
    rewrite Hback. world_norm.
    rewrite <- !app_assoc. simpl.
    by rewrite !Nat.add_0_r.
Qed.
End LogFacts.
(** Run alone, the step machine of a thread is [logging_log]. *)
Lemma run_call_logging_log vformat malloc_result localtime_result c w :
  run_call vformat malloc_result localtime_result 11 c AtTest w
  = logging_log vformat malloc_result localtime_result
      (c_module c) (c_level c) (c_message c) (c_arglist c) w.
Proof.
  unfold logging_log, run_call, log_step, mbind, M_bind, bind, gets, mret,
    M_ret, ret.
  simpl.
  destruct (c_level c <=? _level w); [| done].
  repeat match goal with
         | |- context [match ?r with Ok _ _ => _ | _ => _ end] =>
             lazymatch r with
             | context [match _ with Ok _ _ => _ | _ => _ end] => fail
             | _ => destruct r as [[] ?| | |]; try done
             end
         | |- context [decide ?P] => destruct (decide P)
         end.
Qed.

(** ** Text of a message *)

Lemma count_char_app c a b :
  count_char c (a +:+ b) = (count_char c a + count_char c b)%nat.
Proof.
  induction a as [|x a IH]; [done |].
  rewrite append_cons. simpl. rewrite IH. lia.
Qed.

Lemma written_log_events vformat m d stamp module level message arglist :
  written d (log_events vformat m d stamp module level message arglist)
  = log_line vformat stamp module level message arglist.
Proof.
  unfold log_events, log_line, stamp_text.
  destruct stamp as [t|]; simpl; rewrite !decide_True by done;
    rewrite ?append_assoc, ?append_empty_r; reflexivity.
Qed.

Lemma written_log_events_other vformat m d f stamp module level message
    arglist :
  f ≠ d ->
  written f (log_events vformat m d stamp module level message arglist)
  = EmptyString.
Proof.
  intros Hf. unfold log_events.
  destruct stamp as [t|]; simpl; rewrite !decide_False by done; reflexivity.
Qed.

Lemma written_after_log f w stamp evs :
  written f (trace (after_log w stamp evs))
  = written f (trace w) +:+ written f evs.
Proof. unfold after_log. simpl. apply written_app. Qed.

Lemma after_log_changes w stamp vformat m d module level message arglist :
  after_log w stamp
    (log_events vformat m d stamp module level message arglist) ≠ w.
Proof.
  intros Heq. apply (f_equal (fun x => length (trace x))) in Heq.
  unfold after_log, log_events in Heq. simpl in Heq.
  rewrite length_app in Heq. simpl in Heq. lia.
Qed.

Lemma logging_log_dropped vformat malloc_result localtime_result
    module level message arglist w :
  _level w < level ->
  logging_log vformat malloc_result localtime_result module level message
              arglist w = Ok tt w.
Proof.
  intros Hlt. unfold logging_log, mbind, M_bind, bind, gets.
  by rewrite (proj2 (Z.leb_gt _ _) Hlt).
Qed.

(** C1: a call whose severity is above the threshold changes nothing (no
    write, no lock, the world is the same); a call whose severity is at most
    the threshold takes the lock once, appends exactly one message to the
    destination and nothing to any other stream, releases the lock and
    flushes; hence if a call at some severity is not dropped, neither is a
    call at a smaller (more severe) severity. *)
Theorem logging_log_filter vformat malloc_result localtime_result
    module level message arglist w :
  (_level w < level ->
     logging_log vformat malloc_result localtime_result module level message
                 arglist w = Ok tt w) ∧
  (level <= _level w -> ready w ->
     forall stamp,
       next_stamp malloc_result localtime_result w = Some stamp ->
       exists w',
         logging_log vformat malloc_result localtime_result module level
                     message arglist w = Ok tt w' ∧
         trace w' =
         trace w ++
         log_events vformat (print_mutex w) (_destination w) stamp
                    module level message arglist ∧
         forall f,
           written f (trace w') =
           written f (trace w) +:+
           (if decide (f = _destination w)
            then log_line vformat stamp module level message arglist
            else EmptyString)) ∧
  (forall level' stamp,
     level' <= level -> ready w ->
     next_stamp malloc_result localtime_result w = Some stamp ->
     logging_log vformat malloc_result localtime_result module level message
                 arglist w ≠ Ok tt w ->
     logging_log vformat malloc_result localtime_result module level' message
                 arglist w ≠ Ok tt w).
Proof.
  split; [apply logging_log_dropped |]. split.
  - intros Hle Hr stamp Hs. eexists. split; [| split].
    + by apply logging_log_emits.
    + reflexivity.
    + intros f. rewrite written_after_log. f_equal.
      destruct (decide (f = _destination w)) as [->|Hf].
      * apply written_log_events.
      * by apply written_log_events_other.
  - intros level' stamp Hle Hr Hs Hemit.
    destruct (Z.lt_ge_cases (_level w) level) as [Hdrop|Hpass].
    + exfalso. apply Hemit. by apply logging_log_dropped.
    + rewrite (logging_log_emits _ _ _ _ _ _ _ _ stamp) by (done || lia).
      intros [= Heq]. by apply after_log_changes in Heq.
Qed.

Lemma logging_log_filter_witness :
  logging_log sample_format sample_malloc sample_time "Net"
    LOGGING_LEVEL_DEBUG "retry %d" [VInt 3]
    (with_level LOGGING_LEVEL_WARNING sample_world)
  = Ok tt (with_level LOGGING_LEVEL_WARNING sample_world) ∧
  (exists w',
     logging_log sample_format sample_malloc sample_time "Net"
       LOGGING_LEVEL_ERROR "conn failed: %s" [VStr "timeout"]
       (with_level LOGGING_LEVEL_WARNING sample_world) = Ok tt w' ∧
     written stdout (trace w') =
     "[100:ERROR@02.10.2026/03:04:05] Net: conn failed: timeout" +:+ NL) ∧
  logging_log sample_format sample_malloc sample_time "Net"
    LOGGING_LEVEL_CRITICAL "conn failed: %s" [VStr "timeout"]
    (with_level LOGGING_LEVEL_WARNING sample_world)
  ≠ Ok tt (with_level LOGGING_LEVEL_WARNING sample_world).
Proof.
  destruct (logging_log_filter sample_format sample_malloc sample_time "Net"
              LOGGING_LEVEL_DEBUG "retry %d" [VInt 3]
              (with_level LOGGING_LEVEL_WARNING sample_world))
    as (Hdrop & _ & _).
  destruct (logging_log_filter sample_format sample_malloc sample_time "Net"
              LOGGING_LEVEL_ERROR "conn failed: %s" [VStr "timeout"]
              (with_level LOGGING_LEVEL_WARNING sample_world))
    as (_ & Hemit & Hmono).
  assert (Hle : LOGGING_LEVEL_ERROR
                <= _level (with_level LOGGING_LEVEL_WARNING sample_world))
    by (vm_compute; congruence).
  assert (Hready : ready (with_level LOGGING_LEVEL_WARNING sample_world))
    by (split; [discriminate | reflexivity]).
  destruct (Hemit Hle Hready (sample_time O) eq_refl)
    as (w' & Hrun & _ & Hout).
  split; [apply Hdrop; reflexivity |].
  split.
  - exists w'. split; [exact Hrun |]. rewrite (Hout stdout). reflexivity.
  - apply (Hmono LOGGING_LEVEL_CRITICAL (sample_time O)
             ltac:(vm_compute; congruence) Hready eq_refl).
    rewrite Hrun. intros [= ->].
    specialize (Hout stdout). vm_compute in Hout. discriminate.
Defined.

(** ** Tiers *)

Lemma tier_of_cases (s : Z) :
  (s < 100 ∧ tier_of s = "CRITICAL") ∨
  (100 <= s < 1000 ∧ tier_of s = "ERROR") ∨
  (1000 <= s < 10000 ∧ tier_of s = "WARNING") ∨
  (10000 <= s < 50000 ∧ tier_of s = "INFO") ∨
  (50000 <= s ∧ tier_of s = "DEBUG").
Proof.
  unfold tier_of, LOGGING_LEVEL_DEBUG, LOGGING_LEVEL_INFO,
    LOGGING_LEVEL_WARNING, LOGGING_LEVEL_ERROR.
  repeat match goal with
         | |- context [?a >=? ?b] =>
             let H := fresh in
             destruct (Z.geb_spec a b) as [H|H]
         end; lia || (intuition lia).
Qed.

Local Ltac tier_bound n :=
  exists n; split; [rewrite !elem_of_cons; tauto |]; split; [lia |];
  let t' := fresh "t'" in
  let lb' := fresh "lb'" in
  let Hin := fresh "Hin" in
  intros t' lb' Hin ?;
  rewrite !elem_of_cons, elem_of_nil in Hin;
  destruct Hin as [Hin|[Hin|[Hin|[Hin|[Hin|[]]]]]];
  injection Hin as ? ->; lia.

(** C2: for every severity in 0..65535 the label chosen by [logging_log] is
    the named tier with the greatest lower bound not above the severity:
    CRITICAL on 0..99, ERROR on 100..999, WARNING on 1000..9999, INFO on
    10000..49999, DEBUG on 50000..65535; and that label is what the call
    writes right after taking the lock. *)
Theorem tier_of_highest_bound (s : Z) :
  is_ushort s ->
  (exists lb,
     (tier_of s, lb) ∈ tier_bounds ∧ lb <= s ∧
     forall t' lb', (t', lb') ∈ tier_bounds -> lb' <= s -> lb' <= lb) ∧
  (0 <= s <= 99 -> tier_of s = "CRITICAL") ∧
  (100 <= s <= 999 -> tier_of s = "ERROR") ∧
  (1000 <= s <= 9999 -> tier_of s = "WARNING") ∧
  (10000 <= s <= 49999 -> tier_of s = "INFO") ∧
  (50000 <= s <= 65535 -> tier_of s = "DEBUG") ∧
  (tier_of 0 = "CRITICAL" ∧ tier_of 99 = "CRITICAL" ∧
   tier_of 100 = "ERROR" ∧ tier_of 999 = "ERROR" ∧
   tier_of 1000 = "WARNING" ∧ tier_of 9999 = "WARNING" ∧
   tier_of 10000 = "INFO" ∧ tier_of 49999 = "INFO" ∧
   tier_of 50000 = "DEBUG" ∧ tier_of 65535 = "DEBUG") ∧
  (forall vformat malloc_result localtime_result module message arglist w
          stamp,
     s <= _level w -> ready w ->
     next_stamp malloc_result localtime_result w = Some stamp ->
     exists w' rest,
       logging_log vformat malloc_result localtime_result module s message
                   arglist w = Ok tt w' ∧
       trace w' =
       trace w ++
       EvLock (print_mutex w) ::
       EvWrite (_destination w) ("[" +:+ fmt_d s +:+ ":" +:+ tier_of s) ::
       rest).
Proof.
  intros [Hlo Hhi].
  split.
  { unfold tier_bounds.
    destruct (tier_of_cases s) as [[H ->]|[[H ->]|[[H ->]|[[H ->]|[H ->]]]]];
      [tier_bound 0 | tier_bound 100 | tier_bound 1000 | tier_bound 10000
      | tier_bound 50000]. }
  do 5 (split;
        [intros Hr;
         destruct (tier_of_cases s)
           as [[H E]|[[H E]|[[H E]|[[H E]|[H E]]]]];
         (exact E || lia) |]).
  split; [repeat split; reflexivity |].
  intros vformat malloc_result localtime_result module message arglist w
         stamp Hle Hr Hs.
  eexists _, _. split; [by apply logging_log_emits |].
  unfold after_log, log_events, tag_text. simpl. reflexivity.
Qed.

Lemma tier_of_highest_bound_witness :
  tier_of 999 = "ERROR" ∧
  (exists lb, (tier_of 999, lb) ∈ tier_bounds ∧ lb <= 999) ∧
  exists w' rest,
    logging_log sample_format sample_malloc sample_time "Net" 999
      "conn failed: %s" [VStr "timeout"] sample_world = Ok tt w' ∧
    trace w' = EvLock 4096 :: EvWrite stdout "[999:ERROR" :: rest.
Proof.
  destruct (tier_of_highest_bound 999 ltac:(unfold is_ushort; lia))
    as ((lb & Hin & Hle & _) & _ & He & _ & _ & _ & _ & Hlog).
  split; [apply He; lia |].
  split; [exists lb; split; [exact Hin | exact Hle] |].
  destruct (Hlog sample_format sample_malloc sample_time "Net"
              "conn failed: %s" [VStr "timeout"] sample_world (sample_time O)
              ltac:(vm_compute; congruence)
              ltac:(split; [discriminate | reflexivity])
              eq_refl)
    as (w' & rest & Hrun & Htrace).
  exists w', rest. split; [exact Hrun | exact Htrace].
Defined.

(** ** Digits *)

Lemma count_newline_uint (u : Decimal.uint) :
  count_char newline (NilEmpty.string_of_uint u) = O.
Proof. induction u; simpl; done. Qed.

Lemma count_newline_uint0 (u : Decimal.uint) :
  count_char newline (NilZero.string_of_uint u) = O.
Proof. destruct u; try done; apply (count_newline_uint (_ u)). Qed.

Lemma count_newline_fmt_d (z : Z) : count_char newline (fmt_d z) = O.
Proof.
  unfold fmt_d, NilZero.string_of_int.
  destruct (Z.to_int z); simpl; apply count_newline_uint0.
Qed.

Lemma count_newline_zeros (n : nat) : count_char newline (zeros n) = O.
Proof. induction n; simpl; done. Qed.

Lemma count_newline_fmt_0d (width : nat) (z : Z) :
  count_char newline (fmt_0d width z) = O.
Proof.
  unfold fmt_0d. rewrite !count_char_app, count_newline_zeros,
    count_newline_uint0.
  by destruct (z <? 0).
Qed.

Lemma count_newline_tier_of (level : Z) :
  count_char newline (tier_of level) = O.
Proof.
  destruct (tier_of_cases level)
    as [[_ ->]|[[_ ->]|[[_ ->]|[[_ ->]|[_ ->]]]]]; reflexivity.
Qed.

Lemma count_newline_timestamp_text (t : tm) :
  count_char newline (timestamp_text t) = O.
Proof.
  unfold timestamp_text.
  by rewrite !count_char_app, !count_newline_fmt_0d.
Qed.

Lemma count_newline_log_line vformat stamp module level message arglist :
  count_char newline module = O ->
  count_char newline (vformat message arglist) = O ->
  count_char newline (log_line vformat stamp module level message arglist)
  = 1%nat.
Proof.
  intros Hm Hb. unfold log_line, tag_text, stamp_text.
  rewrite !count_char_app, Hm, Hb, count_newline_fmt_d, count_newline_tier_of.
  destruct stamp as [t|]; [| reflexivity].
  by rewrite count_char_app, count_newline_timestamp_text.
Qed.

Lemma fmt_0d_two_digits (n : Z) :
  0 <= n <= 99 -> fmt_0d 2 n = two_digits n.
Proof.
  intros Hn.
  assert (Hall : forallb (fun k => String.eqb (fmt_0d 2 k) (two_digits k))
                         (seqZ 0 100) = true)
    by (vm_compute; reflexivity).
  rewrite List.forallb_forall in Hall.
  apply String.eqb_eq, Hall, list_elem_of_In, elem_of_seqZ. lia.
Qed.

Lemma fmt_0d_four_digits (n : Z) :
  0 <= n <= 9999 -> fmt_0d 4 n = four_digits n.
Proof.
  intros Hn.
  assert (Hall : forallb (fun k => String.eqb (fmt_0d 4 k) (four_digits k))
                         (seqZ 0 10000) = true)
    by (vm_compute; reflexivity).
  rewrite List.forallb_forall in Hall.
  apply String.eqb_eq, Hall, list_elem_of_In, elem_of_seqZ. lia.
Qed.

Lemma next_stamp_flag malloc_result localtime_result w stamp :
  next_stamp malloc_result localtime_result w = Some stamp ->
  (_timestamp_printed w ≠ 0 ∧
   exists t, localtime_result (ntimes w) = Some t ∧ stamp = Some t) ∨
  (_timestamp_printed w = 0 ∧ stamp = None).
Proof.
  unfold next_stamp. intros Hs.
  destruct (decide (_timestamp_printed w ≠ 0)) as [Hf|Hf].
  - left. split; [done |].
    destruct (decide (malloc_result (nallocs w) = 0)); [done |].
    destruct (localtime_result (ntimes w)) as [t|]; [| done].
    injection Hs as <-. by exists t.
  - right. split; [| congruence].
    by destruct (decide (_timestamp_printed w = 0)).
Qed.

(** C3: an emitted message is the text
    [[<severity>:<TIER>], then [@<timestamp>] exactly when the timestamp flag
    is set, then ["] "], the module, [": "], the formatted body and a newline;
    when neither the module nor the body contains a newline it is exactly one
    line. *)
Theorem logging_log_line_format vformat malloc_result localtime_result
    module level message arglist w stamp :
  level <= _level w -> ready w ->
  next_stamp malloc_result localtime_result w = Some stamp ->
  exists w' line,
    logging_log vformat malloc_result localtime_result module level message
                arglist w = Ok tt w' ∧
    written (_destination w) (trace w')
    = written (_destination w) (trace w) +:+ line ∧
    line =
      "[" +:+ fmt_d level +:+ ":" +:+ tier_of level +:+
      (match stamp with
       | Some t => "@" +:+ timestamp_text t
       | None => EmptyString
       end) +:+
      "] " +:+ module +:+ ": " +:+ vformat message arglist +:+ NL ∧
    (is_Some stamp <-> _timestamp_printed w ≠ 0) ∧
    (count_char newline module = O ->
     count_char newline (vformat message arglist) = O ->
     count_char newline line = 1%nat).
Proof.
  intros Hle Hr Hs.
  exists (after_log w stamp
            (log_events vformat (print_mutex w) (_destination w) stamp
                        module level message arglist)),
         (log_line vformat stamp module level message arglist).
  split; [by apply logging_log_emits |].
  split; [by rewrite written_after_log, written_log_events |].
  split.
  { unfold log_line, tag_text, stamp_text.
    by rewrite !append_assoc. }
  split; [| apply count_newline_log_line].
  destruct (next_stamp_flag _ _ _ _ Hs) as [(Hf & t & _ & ->)|(Hf & ->)].
  - split; [done | by eexists].
  - split; [by intros [? [=]] | done].
Qed.

Lemma logging_log_line_format_witness :
  exists w',
    logging_log sample_format sample_malloc sample_time "Net"
      LOGGING_LEVEL_ERROR "conn failed: %s" [VStr "timeout"] sample_world
    = Ok tt w' ∧
    written stdout (trace w')
    = "[100:ERROR@02.10.2026/03:04:05] Net: conn failed: timeout" +:+ NL.
Proof.
  destruct (logging_log_line_format sample_format sample_malloc sample_time
              "Net" LOGGING_LEVEL_ERROR "conn failed: %s" [VStr "timeout"]
              sample_world (sample_time O)
              ltac:(vm_compute; congruence)
              ltac:(split; [discriminate | reflexivity])
              eq_refl)
    as (w' & line & Hrun & Hout & -> & _).
  exists w'. split; [exact Hrun | exact Hout].
Defined.

(** ** Timestamps *)

Lemma timestamp_text_fields (t : tm) :
  valid_tm t ->
  timestamp_text t =
  two_digits (tm_mday t) +:+ "." +:+ two_digits (tm_mon t) +:+ "." +:+
  four_digits (tm_year t + 1900) +:+ "/" +:+
  two_digits (tm_hour t) +:+ ":" +:+ two_digits (tm_min t) +:+ ":" +:+
  two_digits (tm_sec t).
Proof.
  intros (Hd & Hmo & Hy & Hh & Hmi & Hs). unfold timestamp_text.
  rewrite !fmt_0d_two_digits, fmt_0d_four_digits by lia. reflexivity.
Qed.

(** C5: with the timestamp flag set, an emitted line carries, right after
    the tier, ["@"] and the local time as [DD.MM.YYYY/HH:MM:SS]: two digits
    for day, month, hour, minute and second, four for the year, and the
    month field is [tm_mon] itself, counted from zero (January is printed as
    00, November as 10).  With the flag cleared there is no such segment:
    the tier is followed directly by ["] "]. *)
Theorem timestamp_segment vformat malloc_result localtime_result
    module level message arglist w stamp :
  level <= _level w -> ready w ->
  next_stamp malloc_result localtime_result w = Some stamp ->
  exists w',
    logging_log vformat malloc_result localtime_result module level message
                arglist w = Ok tt w' ∧
    (_timestamp_printed w ≠ 0 ->
     exists t,
       localtime_result (ntimes w) = Some t ∧
       written (_destination w) (trace w')
       = written (_destination w) (trace w) +:+
         tag_text level (tier_of level) +:+ "@" +:+ timestamp_text t +:+
         "] " +:+ module +:+ ": " +:+ vformat message arglist +:+ NL ∧
       (valid_tm t ->
        timestamp_text t =
        two_digits (tm_mday t) +:+ "." +:+ two_digits (tm_mon t) +:+ "." +:+
        four_digits (tm_year t + 1900) +:+ "/" +:+
        two_digits (tm_hour t) +:+ ":" +:+ two_digits (tm_min t) +:+ ":" +:+
        two_digits (tm_sec t) ∧
        String.length (timestamp_text t) = 19%nat ∧
        (tm_mon t = 0 -> two_digits (tm_mon t) = "00") ∧
        (tm_mon t = 10 -> two_digits (tm_mon t) = "10"))) ∧
    (_timestamp_printed w = 0 ->
     written (_destination w) (trace w')
     = written (_destination w) (trace w) +:+
       tag_text level (tier_of level) +:+
       "] " +:+ module +:+ ": " +:+ vformat message arglist +:+ NL).
Proof.
  intros Hle Hr Hs.
  eexists. split; [by apply logging_log_emits |].
  rewrite written_after_log, written_log_events. unfold log_line.
  destruct (next_stamp_flag _ _ _ _ Hs) as [(Hf & t & Ht & ->)|(Hf & ->)].
  - split; [| done]. intros _. exists t. split; [done |].
    split; [by simpl; rewrite !append_assoc |].
    intros Hv. split; [by apply timestamp_text_fields |].
    split.
    + rewrite timestamp_text_fields by done. reflexivity.
    + split; intros ->; reflexivity.
  - split; [done |]. intros _. reflexivity.
Qed.

Lemma timestamp_segment_witness :
  (exists w',
     logging_log sample_format sample_malloc sample_time "Net"
       LOGGING_LEVEL_ERROR "conn failed: %s" [VStr "timeout"] sample_world
     = Ok tt w' ∧
     written stdout (trace w')
     = "[100:ERROR@02.10.2026/03:04:05] Net: conn failed: timeout" +:+ NL) ∧
  timestamp_text (mk_tm 5 4 3 2 10 126)
  = two_digits 2 +:+ "." +:+ two_digits 10 +:+ "." +:+ four_digits 2026 +:+
    "/" +:+ two_digits 3 +:+ ":" +:+ two_digits 4 +:+ ":" +:+ two_digits 5 ∧
  two_digits 10 = "10" ∧
  exists w',
    logging_log sample_format sample_malloc sample_time "Net"
      LOGGING_LEVEL_ERROR "conn failed: %s" [VStr "timeout"]
      (with_timestamp_printed 0 sample_world)
    = Ok tt w' ∧
    written stdout (trace w')
    = "[100:ERROR] Net: conn failed: timeout" +:+ NL.
Proof.
  destruct (timestamp_segment sample_format sample_malloc sample_time
              "Net" LOGGING_LEVEL_ERROR "conn failed: %s" [VStr "timeout"]
              sample_world (sample_time O)
              ltac:(vm_compute; congruence)
              ltac:(split; [discriminate | reflexivity])
              eq_refl)
    as (w' & Hrun & Hon & _).
  destruct (Hon ltac:(discriminate)) as (t & Ht & Hout & Hfields).
  injection Ht as <-.
  destruct (Hfields ltac:(unfold valid_tm; simpl; lia))
    as (Htext & _ & _ & Hnov).
  destruct (timestamp_segment sample_format sample_malloc sample_time
              "Net" LOGGING_LEVEL_ERROR "conn failed: %s" [VStr "timeout"]
              (with_timestamp_printed 0 sample_world) None
              ltac:(vm_compute; congruence)
              ltac:(split; [discriminate | reflexivity])
              eq_refl)
    as (w2 & Hrun2 & _ & Hoff).
  split; [exists w'; split; [exact Hrun | exact Hout] |].
  split; [exact Htext |].
  split; [exact (Hnov eq_refl) |].
  exists w2. split; [exact Hrun2 | exact (Hoff eq_refl)].
Defined.

(** ** Configuration *)

(** C7: setting a null destination changes nothing, so the destination read
    afterwards is the previous one; setting a non-null destination makes it
    the one read afterwards. *)
Theorem set_destination_get (dest : FILEp) (w : world) :
  (dest = NULL ->
   logging_set_destination dest w = Ok tt w ∧
   (logging_set_destination dest;; logging_get_destination) w
   = Ok (_destination w) w) ∧
  (dest ≠ NULL ->
   (logging_set_destination dest;; logging_get_destination) w
   = Ok dest (with_destination dest w)).
Proof.
  unfold logging_set_destination, logging_get_destination, mbind, M_bind,
    bind, gets, modify, mret, M_ret, ret.
  split.
  - intros ->. by rewrite decide_False by (intros H; by apply H).
  - intros Hd. by rewrite decide_True.
Qed.

Lemma set_destination_get_witness :
  (logging_set_destination NULL;; logging_get_destination) sample_world
  = Ok stdout sample_world ∧
  (logging_set_destination stderr;; logging_get_destination) sample_world
  = Ok stderr (with_destination stderr sample_world).
Proof.
  split.
  - apply (set_destination_get NULL sample_world). reflexivity.
  - apply (set_destination_get stderr sample_world). discriminate.
Defined.

(** ** Initialisation *)

Lemma logging_init_ok malloc_result w :
  malloc_result (nallocs w) ≠ 0 ->
  logging_init malloc_result w
  = Ok tt (mk_world LOGGING_LEVEL_ALL (_timestamp_printed w) stdout
             (malloc_result (nallocs w))
             (<[malloc_result (nallocs w) := Unlocked]> (mutexes w))
             (S (nallocs w)) (ntimes w) (trace w)).
Proof.
  intros Hp. destruct w as [lv fl d m ms na nt tr]. simpl in *.
  unfold logging_init, malloc, pthread_mutex_init, modify, gets, mbind,
    M_bind, bind.
  world_norm. by rewrite decide_False.
Qed.

Lemma logging_init_null malloc_result w :
  malloc_result (nallocs w) = 0 ->
  logging_init malloc_result w = Undefined.
Proof.
  intros Hp. destruct w as [lv fl d m ms na nt tr]. simpl in *.
  unfold logging_init, malloc, pthread_mutex_init, modify, gets, mbind,
    M_bind, bind.
  world_norm. by rewrite decide_True.
Qed.

(** C6 (as the code has it): [logging_init] assigns the destination, the
    threshold and the mutex, and leaves [_timestamp_printed] as it finds it.
    Called after [logging_set_timestamp_printed(0)] it returns with the
    destination on standard output, the threshold at 65535, the mutex
    allocated and unlocked, and the timestamp flag still off; only from the
    freshly loaded program is the flag on, through its static initialiser. *)
Theorem logging_init_leaves_timestamp_flag :
  (exists w',
     (logging_set_timestamp_printed 0;; logging_init sample_malloc)
       initial_world = Ok tt w' ∧
     _destination w' = stdout ∧ _level w' = LOGGING_LEVEL_ALL ∧
     mutexes w' !! print_mutex w' = Some Unlocked ∧
     _timestamp_printed w' = 0) ∧
  (exists w',
     logging_init sample_malloc initial_world = Ok tt w' ∧
     _destination w' = stdout ∧ _level w' = LOGGING_LEVEL_ALL ∧
     mutexes w' !! print_mutex w' = Some Unlocked ∧
     _timestamp_printed w' = 1) ∧
  (forall malloc_result w w',
     logging_init malloc_result w = Ok tt w' ->
     _timestamp_printed w' = _timestamp_printed w).
Proof.
  split; [| split].
  - eexists. split; [vm_compute; reflexivity |]. by vm_compute.
  - eexists. split; [vm_compute; reflexivity |]. by vm_compute.
  - intros malloc_result w w' Hrun.
    destruct (decide (malloc_result (nallocs w) = 0)) as [Hp|Hp].
    + by rewrite logging_init_null in Hrun.
    + rewrite logging_init_ok in Hrun by done. by injection Hrun as <-.
Qed.

Lemma logging_init_leaves_timestamp_flag_witness :
  _timestamp_printed sample_world = _timestamp_printed initial_world.
Proof.
  destruct logging_init_leaves_timestamp_flag as (_ & _ & Hkeep).
  apply (Hkeep sample_malloc initial_world sample_world).
  vm_compute. reflexivity.
Defined.

(** C8, the claim as stated, fails: when the allocation fails,
    [logging_init] does not end in a failure of its own; it stores the null
    pointer and passes it to [pthread_mutex_init]. *)
Lemma logging_init_alloc_failure_not_fatal :
  ~ (forall malloc_result w,
       malloc_result (nallocs w) = 0 ->
       fails_fatally (logging_init malloc_result w)).
Proof.
  intros Hclaim.
  specialize (Hclaim failing_malloc initial_world eq_refl).
  unfold fails_fatally in Hclaim.
  rewrite logging_init_null in Hclaim by reflexivity. discriminate.
Qed.

(** C8 (amended): [logging_init] has no failure path of its own and never
    tests the allocation.  When the allocation succeeds it returns with
    [print_mutex] non-null and designating an initialised, unlocked mutex;
    whenever it returns, [print_mutex] is the pointer the allocator gave and
    is non-null; when the allocation fails the null pointer reaches
    [pthread_mutex_init] and the behaviour is undefined. *)
Theorem logging_init_print_mutex malloc_result w :
  logging_init malloc_result w ≠ Aborted ∧
  (malloc_result (nallocs w) ≠ 0 ->
   exists w',
     logging_init malloc_result w = Ok tt w' ∧
     print_mutex w' = malloc_result (nallocs w) ∧
     print_mutex w' ≠ 0 ∧
     mutexes w' !! print_mutex w' = Some Unlocked) ∧
  (forall w',
     logging_init malloc_result w = Ok tt w' ->
     print_mutex w' = malloc_result (nallocs w) ∧ print_mutex w' ≠ 0) ∧
  (malloc_result (nallocs w) = 0 ->
   logging_init malloc_result w = Undefined).
Proof.
  destruct (decide (malloc_result (nallocs w) = 0)) as [Hp|Hp].
  - rewrite logging_init_null by done.
    split; [done |]. split; [done |]. split; done.
  - rewrite logging_init_ok by done.
    split; [done |]. split; [| split; [| done]].
    + intros _. eexists. split; [reflexivity |]. simpl.
      split; [done |]. split; [done |]. apply lookup_insert_eq.
    + intros w' [= <-]. by simpl.
Qed.

Lemma logging_init_print_mutex_witness :
  (exists w',
     logging_init sample_malloc initial_world = Ok tt w' ∧
     print_mutex w' = 4096 ∧
     mutexes w' !! print_mutex w' = Some Unlocked) ∧
  print_mutex sample_world ≠ 0 ∧
  logging_init failing_malloc initial_world = Undefined.
Proof.
  destruct (logging_init_print_mutex sample_malloc initial_world)
    as (_ & Hok & Hret & _).
  destruct (logging_init_print_mutex failing_malloc initial_world)
    as (_ & _ & _ & Hnull).
  destruct (Hok ltac:(discriminate)) as (w' & Hrun & Hp & _ & Hm).
  split; [exists w'; split; [exact Hrun |]; split; [exact Hp | exact Hm] |].
  split; [| exact (Hnull eq_refl)].
  apply (Hret sample_world). vm_compute. reflexivity.
Defined.

(** ** The external-write handoff *)

Lemma pthread_mutex_lock_free (w : world) :
  mutexes w !! print_mutex w = Some Unlocked ->
  pthread_mutex_lock (print_mutex w) w
  = Ok tt (locked w).
Proof. intros Hm. unfold pthread_mutex_lock. by rewrite Hm. Qed.

Lemma pthread_mutex_unlock_held (w : world) :
  mutexes w !! print_mutex w = Some Locked ->
  pthread_mutex_unlock (print_mutex w) w
  = Ok tt (unlocked w).
Proof. intros Hm. unfold pthread_mutex_unlock. by rewrite Hm. Qed.

Lemma logging_aquire_fd_passes vformat malloc_result localtime_result
    level w stamp :
  level <= _level w -> ready w ->
  next_stamp malloc_result localtime_result w = Some stamp ->
  logging_aquire_fd vformat malloc_result localtime_result level w
  = Ok (_destination w)
       (locked
          (after_log w stamp
             (log_events vformat (print_mutex w) (_destination w) stamp
                "Logging" level "*** External logging started..." []))).
Proof.
  intros Hle Hr Hs. unfold logging_aquire_fd, mbind, M_bind, bind, gets.
  rewrite (proj2 (Z.leb_le _ _) Hle).
  rewrite (logging_log_emits _ _ _ _ _ _ _ _ stamp) by done.
  set (w1 := after_log w stamp _).
  change (print_mutex w) with (print_mutex w1).
  change (mutexes w) with (mutexes w1).
  rewrite pthread_mutex_lock_free by apply Hr.
  reflexivity.
Qed.

(** C4: above the threshold [logging_aquire_fd] returns the null pointer at
    once and changes nothing (no lock, no output).  Otherwise it first writes
    one framing message through [logging_log] with module ["Logging"], then
    takes the mutex, and returns the current destination, which is not
    null. *)
Theorem logging_aquire_fd_spec vformat malloc_result localtime_result
    level w :
  (_level w < level ->
   logging_aquire_fd vformat malloc_result localtime_result level w
   = Ok NULL w) ∧
  (level <= _level w -> ready w ->
   forall stamp,
     next_stamp malloc_result localtime_result w = Some stamp ->
     exists fd w',
       logging_aquire_fd vformat malloc_result localtime_result level w
       = Ok fd w' ∧
       fd = _destination w ∧ fd ≠ NULL ∧
       trace w' =
       trace w ++
       log_events vformat (print_mutex w) (_destination w) stamp
         "Logging" level "*** External logging started..." [] ++
       [EvLock (print_mutex w)] ∧
       written (_destination w) (trace w') =
       written (_destination w) (trace w) +:+
       log_line vformat stamp "Logging" level
         "*** External logging started..." [] ∧
       mutexes w' !! print_mutex w' = Some Locked).
Proof.
  split.
  - intros Hlt. unfold logging_aquire_fd, mbind, M_bind, bind, gets.
    by rewrite (proj2 (Z.leb_gt _ _) Hlt).
  - intros Hle Hr stamp Hs. eexists _, _.
    split; [by apply logging_aquire_fd_passes |].
    split; [done |]. split; [apply Hr |].
    split; [by simpl; rewrite <- app_assoc |].
    split; [| apply lookup_insert_eq].
    simpl. rewrite !written_app, written_log_events. simpl.
    by rewrite append_empty_r.
Qed.

Lemma logging_aquire_fd_spec_witness :
  logging_aquire_fd sample_format sample_malloc sample_time
    LOGGING_LEVEL_INFO (with_level LOGGING_LEVEL_WARNING sample_world)
  = Ok NULL (with_level LOGGING_LEVEL_WARNING sample_world) ∧
  exists fd w',
    logging_aquire_fd sample_format sample_malloc sample_time
      LOGGING_LEVEL_INFO sample_world = Ok fd w' ∧
    fd = stdout ∧
    written stdout (trace w') =
    "[10000:INFO@02.10.2026/03:04:05] Logging: *** External logging started..."
    +:+ NL ∧
    mutexes w' !! print_mutex w' = Some Locked.
Proof.
  split.
  - apply (logging_aquire_fd_spec sample_format sample_malloc sample_time
             LOGGING_LEVEL_INFO
             (with_level LOGGING_LEVEL_WARNING sample_world)).
    reflexivity.
  - destruct (logging_aquire_fd_spec sample_format sample_malloc sample_time
                LOGGING_LEVEL_INFO sample_world) as (_ & Hpass).
    destruct (Hpass ltac:(vm_compute; congruence)
                    ltac:(split; [discriminate | reflexivity])
                    (sample_time O) eq_refl)
      as (fd & w' & Hrun & Hfd & _ & _ & Hout & Hm).
    exists fd, w'. split; [exact Hrun |]. split; [exact Hfd |].
    split; [exact Hout | exact Hm].
Defined.

Lemma logging_release_fd_dropped vformat malloc_result localtime_result
    level w :
  mutexes w !! print_mutex w = Some Locked ->
  _level w < level ->
  logging_release_fd vformat malloc_result localtime_result level w
  = Ok tt (unlocked w).
Proof.
  intros Hm Hlt. unfold logging_release_fd, mbind, M_bind, bind, gets.
  rewrite pthread_mutex_unlock_held by done.
  by apply logging_log_dropped.
Qed.

Lemma logging_release_fd_passes vformat malloc_result localtime_result
    level w stamp :
  mutexes w !! print_mutex w = Some Locked ->
  level <= _level w -> _destination w ≠ NULL ->
  next_stamp malloc_result localtime_result w = Some stamp ->
  logging_release_fd vformat malloc_result localtime_result level w
  = Ok tt (after_log (unlocked w) stamp
             (log_events vformat (print_mutex w) (_destination w) stamp
                "Logging" level "*** External logging ended..." [])).
Proof.
  intros Hm Hle Hd Hs. unfold logging_release_fd, mbind, M_bind, bind, gets.
  rewrite pthread_mutex_unlock_held by done.
  apply (logging_log_emits _ _ _ _ _ _ _ (unlocked w)); [done | | done].
  split; [done |]. apply lookup_insert_eq.
Qed.

(** C10: [logging_release_fd] always releases the mutex first; its closing
    framing message goes through [logging_log] and is filtered against the
    threshold of that moment.  Above the threshold the mutex is released and
    nothing is written; so acquiring at a severity that passes, lowering the
    threshold below it and releasing leaves an opening frame without a
    closing one. *)
Theorem logging_release_fd_filtered vformat malloc_result localtime_result
    level w :
  (mutexes w !! print_mutex w = Some Locked -> _level w < level ->
   exists w',
     logging_release_fd vformat malloc_result localtime_result level w
     = Ok tt w' ∧
     mutexes w' !! print_mutex w' = Some Unlocked ∧
     trace w' = trace w ++ [EvUnlock (print_mutex w)] ∧
     forall f, written f (trace w') = written f (trace w)) ∧
  (mutexes w !! print_mutex w = Some Locked -> level <= _level w ->
   _destination w ≠ NULL ->
   forall stamp,
     next_stamp malloc_result localtime_result w = Some stamp ->
     exists w',
       logging_release_fd vformat malloc_result localtime_result level w
       = Ok tt w' ∧
       mutexes w' !! print_mutex w' = Some Unlocked ∧
       trace w' =
       trace w ++
       EvUnlock (print_mutex w) ::
       log_events vformat (print_mutex w) (_destination w) stamp
         "Logging" level "*** External logging ended..." [] ∧
       written (_destination w) (trace w') =
       written (_destination w) (trace w) +:+
       log_line vformat stamp "Logging" level
         "*** External logging ended..." []) ∧
  (forall threshold' stamp,
     ready w -> level <= _level w -> threshold' < level ->
     next_stamp malloc_result localtime_result w = Some stamp ->
     exists w',
       (logging_aquire_fd vformat malloc_result localtime_result level;;
        logging_set_level threshold';;
        logging_release_fd vformat malloc_result localtime_result level) w
       = Ok tt w' ∧
       mutexes w' !! print_mutex w' = Some Unlocked ∧
       written (_destination w) (trace w') =
       written (_destination w) (trace w) +:+
       log_line vformat stamp "Logging" level
         "*** External logging started..." []).
Proof.
  split; [| split].
  - intros Hm Hlt. eexists. split; [by apply logging_release_fd_dropped |].
    split; [apply lookup_insert_eq |]. split; [done |].
    intros f. simpl. rewrite written_app. simpl. apply append_empty_r.
  - intros Hm Hle Hd stamp Hs. eexists.
    split; [by apply logging_release_fd_passes |].
    split; [apply lookup_insert_eq |].
    split; [by simpl; rewrite <- app_assoc |].
    simpl. rewrite !written_app, written_log_events. simpl.
    by rewrite append_assoc.
  - intros threshold' stamp Hr Hle Hlt Hs.
    unfold mbind, M_bind, bind.
    rewrite (logging_aquire_fd_passes _ _ _ _ _ stamp) by done.
    unfold logging_set_level, modify.
    match goal with
    | |- context [logging_release_fd _ _ _ _ ?x] => set (w2 := x)
    end.
    assert (Hheld : mutexes w2 !! print_mutex w2 = Some Locked)
      by apply lookup_insert_eq.
    rewrite logging_release_fd_dropped by done.
    eexists. split; [reflexivity |].
    split; [apply lookup_insert_eq |].
    simpl. rewrite !written_app, written_log_events. simpl.
    by rewrite !append_empty_r.
Qed.

Lemma logging_release_fd_filtered_witness :
  (exists w',
     logging_release_fd sample_format sample_malloc sample_time
       LOGGING_LEVEL_INFO
       (with_level LOGGING_LEVEL_WARNING (locked sample_world)) = Ok tt w' ∧
     mutexes w' !! print_mutex w' = Some Unlocked ∧
     written stdout (trace w') = EmptyString) ∧
  (exists w',
     logging_release_fd sample_format sample_malloc sample_time
       LOGGING_LEVEL_INFO (locked sample_world) = Ok tt w' ∧
     mutexes w' !! print_mutex w' = Some Unlocked ∧
     written stdout (trace w') =
     "[10000:INFO@02.10.2026/03:04:05] Logging: *** External logging ended..."
     +:+ NL) ∧
  exists w',
    (logging_aquire_fd sample_format sample_malloc sample_time
       LOGGING_LEVEL_INFO;;
     logging_set_level LOGGING_LEVEL_WARNING;;
     logging_release_fd sample_format sample_malloc sample_time
       LOGGING_LEVEL_INFO) sample_world = Ok tt w' ∧
    mutexes w' !! print_mutex w' = Some Unlocked ∧
    written stdout (trace w') =
    "[10000:INFO@02.10.2026/03:04:05] Logging: *** External logging started..."
    +:+ NL.
Proof.
  destruct (logging_release_fd_filtered sample_format sample_malloc
              sample_time LOGGING_LEVEL_INFO
              (with_level LOGGING_LEVEL_WARNING (locked sample_world)))
    as (Hdrop & _ & _).
  destruct (logging_release_fd_filtered sample_format sample_malloc
              sample_time LOGGING_LEVEL_INFO (locked sample_world))
    as (_ & Hpass & _).
  destruct (logging_release_fd_filtered sample_format sample_malloc
              sample_time LOGGING_LEVEL_INFO sample_world) as (_ & _ & Hpair).
  destruct (Hdrop ltac:(reflexivity) ltac:(reflexivity))
    as (w1 & Hrun1 & Hm1 & _ & Hout1).
  destruct (Hpass ltac:(reflexivity) ltac:(vm_compute; congruence)
                  ltac:(discriminate) (sample_time O) eq_refl)
    as (w2 & Hrun2 & Hm2 & _ & Hout2).
  destruct (Hpair LOGGING_LEVEL_WARNING (sample_time O)
              ltac:(split; [discriminate | reflexivity])
              ltac:(vm_compute; congruence)
              ltac:(reflexivity)
              eq_refl)
    as (w3 & Hrun3 & Hm3 & Hout3).
  split; [exists w1; split; [exact Hrun1 |]; split; [exact Hm1 |] |].
  { rewrite (Hout1 stdout). reflexivity. }
  split;
    [exists w2; split; [exact Hrun2 |]; split; [exact Hm2 | exact Hout2] |].
  exists w3. split; [exact Hrun3 |]. split; [exact Hm3 | exact Hout3].
Defined.

(** ** Interleaved threads *)

Section Pool.
Variable vformat : string -> va_list -> string.
Variable malloc_result : nat -> Z.
Variable localtime_result : nat -> option tm.


(** What one step does, program point by program point. *)
Lemma thread_step_inv c cs p w t' w' :
  thread_step vformat malloc_result localtime_result (c :: cs, p) w
  = Ok t' w' ->
  match p with
  | AtTest =>
      w' = w ∧
      t' = if decide (c_level c <= _level w) then (c :: cs, AtLock)
           else (cs, AtTest)
  | AtLock =>
      mutexes w !! print_mutex w = Some Unlocked ∧
      w' = locked w ∧ t' = (c :: cs, AtTag)
  | AtTag =>
      w' = emit (EvWrite (_destination w)
                   (tag_text (c_level c) (tier_of (c_level c)))) w ∧
      t' = (c :: cs, AtFlag)
  | AtFlag =>
      if decide (_timestamp_printed w ≠ 0)
      then w' = emit (EvWrite (_destination w) "@") w ∧
           t' = (c :: cs, AtStamp)
      else w' = w ∧ t' = (c :: cs, AtClose)
  | AtStamp =>
      exists t,
        w' = emit (EvWrite (_destination w) (timestamp_text t))
               (with_ntimes (S (ntimes w))
                  (with_nallocs (S (nallocs w)) w)) ∧
        t' = (c :: cs, AtClose)
  | AtClose =>
      w' = emit (EvWrite (_destination w) "] ") w ∧
      t' = (c :: cs, AtModule)
  | AtModule =>
      w' = emit (EvWrite (_destination w) (c_module c +:+ ": ")) w ∧
      t' = (c :: cs, AtBody)
  | AtBody =>
      w' = emit (EvWrite (_destination w)
                   (vformat (c_message c) (c_arglist c))) w ∧
      t' = (c :: cs, AtNewline)
  | AtNewline =>
      w' = emit (EvWrite (_destination w) NL) w ∧
      t' = (c :: cs, AtUnlock)
  | AtUnlock =>
      mutexes w !! print_mutex w = Some Locked ∧
      w' = unlocked w ∧ t' = (c :: cs, AtFlush)
  | AtFlush =>
      w' = emit (EvFlush (_destination w)) w ∧ t' = (cs, AtTest)
  end.
Proof.
  unfold thread_step, log_step, timestamp_print, localtime_r, malloc, free,
    pthread_mutex_lock, pthread_mutex_unlock, fprintf, fflush, modify,
    mbind, M_bind, bind, gets, mret, M_ret, ret, locked, unlocked.
  destruct p; intros Hstep;
    repeat (case_decide || case_match); simplify_eq; eauto;
    try match goal with
        | H : (_ <=? _) = _ |- _ =>
            first [apply Z.leb_gt in H | apply Z.leb_le in H]; lia
        end.
Qed.


Lemma holders_middle (l1 l2 : list thread) (t : thread) :
  holders (l1 ++ t :: l2)
  = holders l1 ++ (if holds_lock t then [t] else []) ++ holders l2.
Proof.
  unfold holders. rewrite filter_app, filter_cons.
  destruct (holds_lock t); [by rewrite decide_True | by rewrite decide_False].
Qed.

Lemma all_owed_middle threshold (l1 l2 : list thread) (t : thread) :
  all_owed threshold (l1 ++ t :: l2)
  = all_owed threshold l1 ++ owed threshold t ++ all_owed threshold l2.
Proof. unfold all_owed. by rewrite map_app, concat_app. Qed.

Lemma concat_lines_app (a b : list string) :
  concat_lines (a ++ b) = concat_lines a +:+ concat_lines b.
Proof.
  induction a as [|x a IH]; [done |].
  simpl. by rewrite IH, append_assoc.
Qed.

Lemma owed_fresh threshold (cs : list call) :
  owed threshold (cs, AtTest)
  = filter (fun c' => c_level c' <= threshold) cs.
Proof.
  destruct cs as [|c cs]; [done |].
  simpl. rewrite filter_cons. by case_decide.
Qed.

(** A thread inside the critical section is the only holder. *)
Lemma holders_outside (l1 l2 : list thread) (t : thread) :
  holds_lock t = false ->
  holders (l1 ++ t :: l2) = holders l1 ++ holders l2.
Proof. intros Ht. by rewrite holders_middle, Ht. Qed.

Lemma lock_state_inside flag l1 l2 t m partial :
  holds_lock t = true ->
  lock_state vformat flag (holders (l1 ++ t :: l2)) m partial ->
  holders l1 = [] ∧ holders l2 = [] ∧ m = Some Locked ∧
  exists stamp,
    stamp_fits flag t.2 stamp ∧ partial = thread_text vformat t stamp.
Proof.
  intros Ht. rewrite holders_middle, Ht.
  destruct (holders l1) as [|h1 [|h1' r1]], (holders l2) as [|h2 r2];
    simpl; done.
Qed.

Lemma lock_state_free flag l1 l2 t partial :
  holds_lock t = false ->
  lock_state vformat flag (holders (l1 ++ t :: l2)) (Some Unlocked) partial ->
  holders l1 = [] ∧ holders l2 = [] ∧ partial = EmptyString.
Proof.
  intros Ht. rewrite holders_outside by done.
  destruct (holders l1) as [|h1 [|h1' r1]], (holders l2) as [|h2 [|h2' r2]];
    simpl; try done; try by intros [[=] _].
  by intros [_ ->].
Qed.

Lemma lock_state_enter flag l1 l2 t m partial :
  holders l1 = [] -> holders l2 = [] ->
  holds_lock t = true ->
  m = Some Locked ->
  (exists stamp,
     stamp_fits flag t.2 stamp ∧ partial = thread_text vformat t stamp) ->
  lock_state vformat flag (holders (l1 ++ t :: l2)) m partial.
Proof.
  intros H1 H2 Ht Hm Hp. rewrite holders_middle, H1, H2, Ht. simpl. done.
Qed.

Lemma lock_state_leave flag l1 l2 t :
  holders l1 = [] -> holders l2 = [] ->
  holds_lock t = false ->
  lock_state vformat flag (holders (l1 ++ t :: l2)) (Some Unlocked) EmptyString.
Proof.
  intros H1 H2 Ht. rewrite holders_outside, H1, H2 by done. simpl. done.
Qed.

Lemma lock_state_outside flag l1 l2 t t' m partial :
  holds_lock t = false -> holds_lock t' = false ->
  lock_state vformat flag (holders (l1 ++ t :: l2)) m partial ->
  lock_state vformat flag (holders (l1 ++ t' :: l2)) m partial.
Proof. intros Ht Ht'. by rewrite !holders_outside. Qed.


Lemma written_emit_write d chunk w :
  written d (trace (emit (EvWrite d chunk) w))
  = written d (trace w) +:+ chunk.
Proof.
  simpl. rewrite written_app. simpl.
  rewrite decide_True by done. by rewrite append_empty_r.
Qed.

Lemma written_emit_quiet d e w :
  (forall f s, e ≠ EvWrite f s) ->
  written d (trace (emit e w)) = written d (trace w).
Proof.
  intros He. simpl. rewrite written_app.
  destruct e; simpl; rewrite ?append_empty_r; try done.
  by destruct (He f s).
Qed.

Lemma same_config_refl w : same_config w w.
Proof. by repeat split. Qed.

Lemma same_config_trans w0 w w' :
  same_config w0 w -> same_config w w' -> same_config w0 w'.
Proof.
  intros (Hl & Hf & Hd & Hm) (Hl' & Hf' & Hd' & Hm').
  repeat split; congruence.
Qed.

(** A thread that is not inside the critical section, and is not after
    the step, takes a step that writes nothing and leaves the mutexes and
    the calls it owes as they are. *)
Lemma pool_inv_outside w0 ts0 l1 l2 t t' w w' :
  pool_inv vformat w0 ts0 (l1 ++ t :: l2) w ->
  holds_lock t = false -> holds_lock t' = false ->
  owed (_level w0) t' = owed (_level w0) t ->
  same_config w w' -> mutexes w' = mutexes w ->
  written (_destination w0) (trace w') = written (_destination w0) (trace w) ->
  pool_inv vformat w0 ts0 (l1 ++ t' :: l2) w'.
Proof.
  intros (Hc & emitted & partial & Hw & Hst & Hperm & Hh)
         Ht Ht' Howed Hc' Hms Hw'.
  split; [by eapply same_config_trans |].
  exists emitted, partial. rewrite Hw', Hms.
  rewrite all_owed_middle in *. rewrite Howed.
  repeat (split; [done |]). by apply (lock_state_outside _ _ _ t).
Qed.

(** The thread inside the critical section takes a step that keeps it
    inside and appends [chunk] to the destination. *)
Lemma pool_inv_inside w0 ts0 l1 l2 c cs p p' chunk w w' :
  pool_inv vformat w0 ts0 (l1 ++ (c :: cs, p) :: l2) w ->
  holds_lock (c :: cs, p) = true -> holds_lock (c :: cs, p') = true ->
  same_config w w' -> mutexes w' = mutexes w ->
  written (_destination w) (trace w')
  = written (_destination w) (trace w) +:+ chunk ->
  (forall stamp,
     stamp_fits (_timestamp_printed w) p stamp ->
     exists stamp',
       stamp_fits (_timestamp_printed w) p' stamp' ∧
       cs_text vformat c p' stamp' = cs_text vformat c p stamp +:+ chunk) ->
  pool_inv vformat w0 ts0 (l1 ++ (c :: cs, p') :: l2) w'.
Proof.
  intros (Hc & emitted & partial & Hw & Hst & Hperm & Hh)
         Hp Hp' Hc' Hms Hw' Htext.
  pose proof Hc as (Hl & Hf & Hd & Hm).
  apply lock_state_inside in Hh as (H1 & H2 & Hheld & stamp & Hfit & ->);
    [| done].
  rewrite Hf, Hd in *.
  destruct (Htext stamp Hfit) as (stamp' & Hfit' & Hcs).
  split; [by eapply same_config_trans |].
  exists emitted, (cs_text vformat c p' stamp').
  split; [| split; [done |]; split].
  - rewrite Hw', Hw, Hcs. by rewrite !append_assoc.
  - rewrite all_owed_middle in *.
    by destruct p, p'.
  - rewrite Hms. apply lock_state_enter; try done. by exists stamp'.
Qed.

Lemma pool_inv_step w0 ts0 ts w ts' w' :
  pool_inv vformat w0 ts0 ts w ->
  pool_step vformat malloc_result localtime_result (ts, w) (ts', w') ->
  pool_inv vformat w0 ts0 ts' w'.
Proof.
  intros Hinv Hstep.
  inversion Hstep as [l1 c cs p l2 w1 t' w1' Hrun]; subst. clear Hstep.
  apply thread_step_inv in Hrun.
  pose proof Hinv as ((Hl & Hf & Hd & Hm) & _).
  destruct p.
  - (* the level test *)
    destruct Hrun as [-> ->].
    eapply pool_inv_outside; try done; try apply same_config_refl;
      rewrite Hl; case_decide; try done; try by destruct cs.
    + unfold owed. by rewrite decide_True.
    + rewrite owed_fresh. unfold owed. by rewrite decide_False.
  - (* lock *)
    destruct Hrun as (Hfree & -> & ->). rewrite Hm in Hfree.
    destruct Hinv as (Hc & emitted & partial & Hw & Hst & Hperm & Hh).
    rewrite Hfree in Hh.
    apply lock_state_free in Hh as (H1 & H2 & ->); [| done].
    split; [done |]. exists emitted, EmptyString.
    split; [by unfold locked; rewrite written_emit_quiet |]. split; [done |].
    split; [by rewrite all_owed_middle in * |].
    apply lock_state_enter; try done.
    + simpl. rewrite Hm. apply lookup_insert_eq.
    + by exists None.
  - (* the tag *)
    destruct Hrun as (-> & ->).
    eapply pool_inv_inside; try done; [apply written_emit_write |].
    intros stamp _. by exists stamp.
  - (* the flag and the at sign *)
    destruct (decide (_timestamp_printed w ≠ 0)) as [Hon|Hoff];
      destruct Hrun as (-> & ->).
    + eapply pool_inv_inside; try done; [apply written_emit_write |].
      intros stamp _. by exists stamp.
    + eapply (pool_inv_inside _ _ _ _ _ _ _ _ EmptyString); try done;
        [by rewrite append_empty_r |].
      intros stamp _. exists None. split.
      * simpl. split; [by intros [? [=]] | done].
      * simpl. by rewrite !append_empty_r.
  - (* the timestamp *)
    destruct Hrun as (t & -> & ->).
    eapply pool_inv_inside; try done;
      [by rewrite written_emit_write |].
    intros stamp Hon. exists (Some t). split.
    + simpl in *. split; [done | by eexists].
    + simpl. by rewrite append_assoc.
  - (* the closing bracket *)
    destruct Hrun as (-> & ->).
    eapply pool_inv_inside; try done; [apply written_emit_write |].
    intros stamp Hfit. exists stamp. split; [done |].
    simpl. by rewrite !append_assoc.
  - (* the module *)
    destruct Hrun as (-> & ->).
    eapply pool_inv_inside; try done; [apply written_emit_write |].
    intros stamp Hfit. exists stamp. split; [done |].
    simpl. by rewrite !append_assoc.
  - (* the body *)
    destruct Hrun as (-> & ->).
    eapply pool_inv_inside; try done; [apply written_emit_write |].
    intros stamp Hfit. exists stamp. split; [done |].
    simpl. by rewrite !append_assoc.
  - (* the newline *)
    destruct Hrun as (-> & ->).
    eapply pool_inv_inside; try done; [apply written_emit_write |].
    intros stamp Hfit. exists stamp. split; [done |].
    simpl. unfold log_line. by rewrite !append_assoc.
  - (* unlock: the message is complete *)
    destruct Hrun as (_ & -> & ->).
    destruct Hinv as (Hc & emitted & partial & Hw & Hst & Hperm & Hh).
    apply lock_state_inside in Hh as (H1 & H2 & Hheld & stamp & Hfit & ->);
      [| done].
    split; [done |]. exists (emitted ++ [(c, stamp)]), EmptyString.
    split; [| split; [| split]].
    + unfold unlocked. rewrite written_emit_quiet by done. simpl.
      rewrite Hw, map_app, concat_lines_app. simpl.
      by rewrite !append_empty_r.
    + apply Forall_app. split; [done |]. by apply Forall_singleton.
    + rewrite all_owed_middle in *.
      rewrite <- Hperm, map_app, <- app_assoc. simpl.
      apply Permutation_app_head, Permutation_middle.
    + assert (mutexes (unlocked w) !! print_mutex w0 = Some Unlocked) as ->
        by (simpl; rewrite Hm; apply lookup_insert_eq).
      by apply lock_state_leave.
  - (* flush *)
    destruct Hrun as (-> & ->).
    eapply pool_inv_outside; try done; [by destruct cs | |].
    + by rewrite owed_fresh.
    + by apply written_emit_quiet.
Qed.

Lemma holders_fresh (ts : list thread) :
  Forall (fun t => t.2 = AtTest) ts -> holders ts = [].
Proof.
  induction 1 as [|[cs p] ts Hp _ IH]; [done |].
  simpl in Hp. subst p. unfold holders in *. rewrite filter_cons, IH.
  rewrite decide_False; [done |]. by destruct cs.
Qed.

Lemma all_owed_fresh threshold (ts : list thread) :
  Forall (fun t => t.2 = AtTest) ts ->
  all_owed threshold ts
  = concat (map (fun t => filter (fun c => c_level c <= threshold) t.1) ts).
Proof.
  induction 1 as [|[cs p] ts Hp _ IH]; [done |].
  simpl in Hp. subst p. unfold all_owed in *. cbn [map concat fst].
  by rewrite IH, owed_fresh.
Qed.

Lemma all_owed_finished threshold (ts : list thread) :
  Forall finished ts -> all_owed threshold ts = [].
Proof.
  induction 1 as [|[cs p] ts Hp _ IH]; [done |].
  unfold finished in Hp. simpl in Hp. subst cs.
  unfold all_owed in *. simpl. by rewrite IH.
Qed.

Lemma holders_finished (ts : list thread) :
  Forall finished ts -> holders ts = [].
Proof.
  induction 1 as [|[cs p] ts Hp _ IH]; [done |].
  unfold finished in Hp. simpl in Hp. subst cs.
  unfold holders in *. by rewrite filter_cons, IH.
Qed.

Lemma pool_inv_init w0 ts0 :
  ready w0 ->
  Forall (fun t => t.2 = AtTest) ts0 ->
  pool_inv vformat w0 ts0 ts0 w0.
Proof.
  intros [_ Hfree] Hfresh. split; [apply same_config_refl |].
  exists [], EmptyString.
  split; [by rewrite !append_empty_r |]. split; [done |]. split; [done |].
  by rewrite holders_fresh.
Qed.

Lemma pool_inv_reachable w0 ts0 ts w :
  ready w0 ->
  Forall (fun t => t.2 = AtTest) ts0 ->
  rtc (pool_step vformat malloc_result localtime_result) (ts0, w0) (ts, w) ->
  pool_inv vformat w0 ts0 ts w.
Proof.
  intros Hr Hfresh Hrun.
  apply (rtc_ind_r (fun cfg => pool_inv vformat w0 ts0 cfg.1 cfg.2)
           (ts0, w0)) in Hrun; [exact Hrun | by apply pool_inv_init |].
  intros [ts1 w1] [ts2 w2] _ Hstep IH. simpl in *.
  by eapply pool_inv_step.
Qed.

(** The scheduler only takes steps of the interleaving relation. *)
Lemma run_schedule_sound sched ts w ts' w' :
  run_schedule vformat malloc_result localtime_result sched ts w
  = Some (ts', w') ->
  rtc (pool_step vformat malloc_result localtime_result) (ts, w) (ts', w').
Proof.
  revert ts w. induction sched as [|i sched IH]; intros ts w Hrun.
  - injection Hrun as <- <-. apply rtc_refl.
  - cbn [run_schedule] in Hrun.
    destruct (ts !! i) as [[[|c cs] p]|] eqn:Hi; try done.
    destruct (thread_step vformat malloc_result localtime_result
                (c :: cs, p) w) as [t1 w1| | |] eqn:Hstep;
      try done.
    eapply rtc_l; [| by apply IH].
    rewrite <- (take_drop_middle ts i (c :: cs, p)) at 1 by done.
    rewrite insert_take_drop by (by eapply lookup_lt_Some).
    by constructor.
Qed.

(** C9: however the steps of the threads interleave, what reaches the
    destination is always a sequence of complete messages, each the whole
    text of one call, followed at most by the unfinished text of the single
    thread inside the critical section; the messages are those of calls
    that pass the threshold, each once; and when all threads have returned
    there is no unfinished text and every such call has its message. *)
Theorem pool_messages_not_interleaved w0 ts0 ts w :
  ready w0 ->
  Forall (fun t => t.2 = AtTest) ts0 ->
  rtc (pool_step vformat malloc_result localtime_result) (ts0, w0) (ts, w) ->
  (exists emitted partial,
     written (_destination w0) (trace w)
     = written (_destination w0) (trace w0) +:+
       concat_lines (map (call_line vformat) emitted) +:+ partial ∧
     Forall (fun e => is_Some e.2 <-> _timestamp_printed w0 ≠ 0) emitted ∧
     map fst emitted ++ all_owed (_level w0) ts
     ≡ₚ concat (map (fun t => filter (fun c => c_level c <= _level w0) t.1)
                   ts0) ∧
     lock_state vformat (_timestamp_printed w0) (holders ts)
       (mutexes w !! print_mutex w0) partial ∧
     (Forall finished ts ->
      partial = EmptyString ∧
      map fst emitted
      ≡ₚ concat (map (fun t => filter (fun c => c_level c <= _level w0) t.1)
                    ts0))).
Proof.
  intros Hr Hfresh Hrun.
  destruct (pool_inv_reachable _ _ _ _ Hr Hfresh Hrun)
    as (_ & emitted & partial & Hw & Hst & Hperm & Hh).
  exists emitted, partial.
  split; [done |]. split; [done |].
  split; [by rewrite <- all_owed_fresh |]. split; [done |].
  intros Hfin. rewrite holders_finished in Hh by done.
  split; [apply Hh |].
  by rewrite <- all_owed_fresh, <- Hperm, all_owed_finished, app_nil_r.
Qed.

End Pool.

Lemma pool_messages_not_interleaved_witness :
  exists ts w emitted,
    rtc (pool_step sample_format sample_malloc sample_time)
        (sample_pool, sample_world) (ts, w) ∧
    Forall finished ts ∧
    written stdout (trace w)
    = concat_lines (map (call_line sample_format) emitted) ∧
    written stdout (trace w)
    = ("[50000:DEBUG@02.10.2026/03:04:05] Disk: retry 3" +:+ NL) +:+
      ("[100:ERROR@02.10.2026/03:04:05] Net: conn failed: timeout" +:+ NL).
Proof.
  destruct (run_schedule sample_format sample_malloc sample_time
              sample_schedule sample_pool sample_world)
    as [[ts w]|] eqn:Hrun; [| vm_compute in Hrun; discriminate].
  pose proof (run_schedule_sound _ _ _ _ _ _ _ _ Hrun) as Hsteps.
  destruct (pool_messages_not_interleaved sample_format sample_malloc
              sample_time sample_world sample_pool ts w
              ltac:(split; [discriminate | reflexivity])
              ltac:(repeat constructor)
              Hsteps)
    as (emitted & partial & Hw & _ & _ & _ & Hfin).
  vm_compute in Hrun. injection Hrun as <- <-.
  assert (Hdone : Forall finished
                    [([], AtTest); ([], AtTest)])
    by (repeat constructor).
  destruct (Hfin Hdone) as [-> _].
  eexists _, _, emitted. split; [exact Hsteps |]. split; [exact Hdone |].
  split; [| reflexivity].
  etrans; [exact Hw |]. apply append_empty_r.
Defined.

(** * Further properties of the code *)

(** ** Every outcome of [logging_log] *)

Section LogOutcomes.
Variable vformat : string -> va_list -> string.
Variable malloc_result : nat -> Z.
Variable localtime_result : nat -> option tm.

Lemma logging_log_blocked module level message arglist w :
  level <= _level w ->
  mutexes w !! print_mutex w = Some Locked ->
  logging_log vformat malloc_result localtime_result module level message
              arglist w = Blocked.
Proof.
  intros Hle Hm. unfold logging_log, mbind, M_bind, bind, gets.
  rewrite (proj2 (Z.leb_le _ _) Hle). unfold pthread_mutex_lock.
  by rewrite Hm.
Qed.

Lemma logging_log_no_mutex module level message arglist w :
  level <= _level w ->
  mutexes w !! print_mutex w = None ->
  logging_log vformat malloc_result localtime_result module level message
              arglist w = Undefined.
Proof.
  intros Hle Hm. unfold logging_log, mbind, M_bind, bind, gets.
  rewrite (proj2 (Z.leb_le _ _) Hle). unfold pthread_mutex_lock.
  by rewrite Hm.
Qed.

Lemma logging_log_null_destination module level message arglist w :
  level <= _level w ->
  mutexes w !! print_mutex w = Some Unlocked ->
  _destination w = NULL ->
  logging_log vformat malloc_result localtime_result module level message
              arglist w = Undefined.
Proof.
  intros Hle Hm Hd. destruct w as [lv fl d m ms na nt tr]. simpl in *.
  apply Z.leb_le in Hle. subst d.
  unfold logging_log, pthread_mutex_lock, fprintf, mbind, M_bind, bind, gets.
  simpl. rewrite Hle. simpl. rewrite Hm. simpl. done.
Qed.

Lemma logging_log_stamp_fails module level message arglist w :
  level <= _level w -> ready w ->
  next_stamp malloc_result localtime_result w = None ->
  logging_log vformat malloc_result localtime_result module level message
              arglist w = Undefined.
Proof.
  intros Hle [Hd Hm] Hs. destruct w as [lv fl d m ms na nt tr].
  simpl in *. apply Z.leb_le in Hle.
  unfold next_stamp in Hs. simpl in Hs.
  unfold logging_log, timestamp_print, localtime_r, malloc, free,
    pthread_mutex_lock, pthread_mutex_unlock, fprintf, fflush, modify,
    mbind, M_bind, bind, gets, mret, M_ret, ret.
  simpl.
  destruct (decide (fl ≠ 0)) as [Hfl|Hfl]; [| done].
  destruct (decide (malloc_result na = 0)) as [Hna|Hna].
  - repeat (first [ rewrite Hle | rewrite Hm
                  | rewrite (decide_True (P := malloc_result na = 0)) by done
                  | rewrite decide_False by done
                  | rewrite decide_True by done ]; simpl).
    done.
  - destruct (localtime_result nt) as [t|] eqn:Hlt; [done |].
    repeat (first [ rewrite Hle | rewrite Hm | rewrite Hlt
                  | rewrite decide_False by done
                  | rewrite decide_True by done ]; simpl).
    done.
Qed.


(** The six ways a call of [logging_log] can go. *)
Lemma logging_log_cases module level message arglist w :
  let r := logging_log vformat malloc_result localtime_result module level
             message arglist w in
  (_level w < level ∧ r = Ok tt w) ∨
  (level <= _level w ∧ mutexes w !! print_mutex w = Some Locked ∧
   r = Blocked) ∨
  (level <= _level w ∧ mutexes w !! print_mutex w = None ∧
   r = Undefined) ∨
  (level <= _level w ∧ mutexes w !! print_mutex w = Some Unlocked ∧
   _destination w = NULL ∧ r = Undefined) ∨
  (level <= _level w ∧ ready w ∧
   next_stamp malloc_result localtime_result w = None ∧ r = Undefined) ∨
  (level <= _level w ∧ ready w ∧
   exists stamp,
     next_stamp malloc_result localtime_result w = Some stamp ∧
     r = Ok tt (after_log w stamp
                  (log_events vformat (print_mutex w) (_destination w) stamp
                     module level message arglist))).
Proof.
  intros r. subst r.
  destruct (Z.lt_ge_cases (_level w) level) as [Hlt|Hle].
  { left. split; [done |]. by apply logging_log_dropped. }
  right.
  destruct (mutexes w !! print_mutex w) as [[|]|] eqn:Hm.
  - right. right.
    destruct (decide (_destination w = NULL)) as [Hd|Hd].
    + left. by rewrite logging_log_null_destination.
    + right.
      destruct (next_stamp malloc_result localtime_result w)
        as [stamp|] eqn:Hs.
      * right. repeat (split; [done |]). exists stamp.
        split; [done |]. by apply logging_log_emits.
      * left. repeat (split; [done |]).
        by apply logging_log_stamp_fails.
  - left. by rewrite logging_log_blocked.
  - right. left. by rewrite logging_log_no_mutex.
Qed.

(** X1: [logging_log] returns exactly when the message is dropped, or the
    logger is ready (destination set, mutex initialised and free) and the
    timestamp, if wanted, can be read; it waits exactly when the message
    passes the threshold and the mutex is held; it never ends the process. *)
Theorem logging_log_outcomes module level message arglist w :
  ((exists w',
      logging_log vformat malloc_result localtime_result module level
                  message arglist w = Ok tt w') <->
   (_level w < level ∨
    (ready w ∧ is_Some (next_stamp malloc_result localtime_result w)))) ∧
  (logging_log vformat malloc_result localtime_result module level message
               arglist w = Blocked <->
   (level <= _level w ∧ mutexes w !! print_mutex w = Some Locked)) ∧
  logging_log vformat malloc_result localtime_result module level message
              arglist w ≠ Aborted.
Proof.
  destruct (logging_log_cases module level message arglist w)
    as [(Hlt & ->)|[(Hle & Hm & ->)|[(Hle & Hm & ->)|[(Hle & Hm & Hd & ->)|
        [(Hle & [Hd Hm] & Hs & ->)|(Hle & [Hd Hm] & stamp & Hs & ->)]]]]].
  - split; [| split; [| done]].
    + split; [by left | by eexists].
    + split; [done | intros [? _]; lia].
  - split; [| split; [| done]].
    + split; [by intros [? ?] |].
      intros [?|[[_ Hm'] _]]; [lia | congruence].
    + done.
  - split; [| split; [| done]].
    + split; [by intros [? ?] |].
      intros [?|[[_ Hm'] _]]; [lia | congruence].
    + split; [done | intros [_ ?]; congruence].
  - split; [| split; [| done]].
    + split; [by intros [? ?] |].
      intros [?|[[Hd' _] _]]; [lia | done].
    + split; [done | intros [_ ?]; congruence].
  - split; [| split; [| done]].
    + split; [by intros [? ?] |].
      intros [?|[_ [? Hs']]]; [lia | congruence].
    + split; [done | intros [_ ?]; congruence].
  - split; [| split; [| done]].
    + split; [intros _; right | by eexists].
      split; [done | by rewrite Hs].
    + split; [done | intros [_ ?]; congruence].
Qed.

End LogOutcomes.

Lemma logging_log_outcomes_witness :
  logging_log sample_format sample_malloc sample_time "Net"
    LOGGING_LEVEL_ERROR "conn failed: %s" [VStr "timeout"]
    (locked sample_world) = Blocked ∧
  exists w',
    logging_log sample_format sample_malloc sample_time "Net"
      LOGGING_LEVEL_ERROR "conn failed: %s" [VStr "timeout"] sample_world
    = Ok tt w'.
Proof.
  destruct (logging_log_outcomes sample_format sample_malloc sample_time
              "Net" LOGGING_LEVEL_ERROR "conn failed: %s" [VStr "timeout"]
              (locked sample_world)) as (_ & Hblocked & _).
  destruct (logging_log_outcomes sample_format sample_malloc sample_time
              "Net" LOGGING_LEVEL_ERROR "conn failed: %s" [VStr "timeout"]
              sample_world) as (Hreturns & _ & _).
  split.
  - apply Hblocked. split; [vm_compute; congruence | reflexivity].
  - apply Hreturns. right.
    split; [split; [discriminate | reflexivity] |].
    eexists. reflexivity.
Defined.

(** ** Configuration and the next message *)

Section Configuration.
Variable vformat : string -> va_list -> string.
Variable malloc_result : nat -> Z.
Variable localtime_result : nat -> option tm.

Lemma logging_log_written module level message arglist w stamp :
  level <= _level w -> ready w ->
  next_stamp malloc_result localtime_result w = Some stamp ->
  exists w',
    logging_log vformat malloc_result localtime_result module level message
                arglist w = Ok tt w' ∧
    same_config w w' ∧ mutexes w' = mutexes w ∧
    nallocs w' =
    (nallocs w + match stamp with Some _ => 1 | None => 0 end)%nat ∧
    ntimes w' =
    (ntimes w + match stamp with Some _ => 1 | None => 0 end)%nat ∧
    forall f,
      written f (trace w') =
      written f (trace w) +:+
      (if decide (f = _destination w)
       then log_line vformat stamp module level message arglist
       else EmptyString).
Proof.
  intros Hle Hr Hs. eexists. split; [by apply logging_log_emits |].
  split; [by repeat split |]. split; [done |].
  split; [by destruct stamp |]. split; [by destruct stamp |].
  intros f. rewrite written_after_log. f_equal.
  destruct (decide (f = _destination w)) as [->|Hf].
  - apply written_log_events.
  - by apply written_log_events_other.
Qed.

(** X2: the threshold [logging_log] applies is the one the latest
    [logging_set_level] stored, whatever it was before: right after
    [logging_set_level(T)], [logging_get_level] returns [T] with nothing
    else changed, a message above [T] is dropped and a message at or below
    [T] is written. *)
Theorem set_level_gates module level message arglist T w :
  (logging_set_level T;; logging_get_level) w = Ok T (with_level T w) ∧
  (T < level ->
   (logging_set_level T;;
    logging_log vformat malloc_result localtime_result module level message
                arglist) w = Ok tt (with_level T w)) ∧
  (level <= T -> ready w ->
   forall stamp,
     next_stamp malloc_result localtime_result w = Some stamp ->
     exists w',
       (logging_set_level T;;
        logging_log vformat malloc_result localtime_result module level
                    message arglist) w = Ok tt w' ∧
       _level w' = T ∧
       written (_destination w) (trace w') =
       written (_destination w) (trace w) +:+
       log_line vformat stamp module level message arglist).
Proof.
  split; [done |]. split.
  - intros Hlt.
    change ((logging_set_level T;;
             logging_log vformat malloc_result localtime_result module level
                         message arglist) w)
      with (logging_log vformat malloc_result localtime_result module level
                        message arglist (with_level T w)).
    by apply logging_log_dropped.
  - intros Hle Hr stamp Hs.
    destruct (logging_log_written module level message arglist
                (with_level T w) stamp Hle Hr Hs)
      as (w' & Hrun & (Hl & _) & _ & _ & _ & Hout).
    exists w'. split; [exact Hrun |]. split; [exact Hl |].
    rewrite (Hout (_destination w)). simpl. by rewrite decide_True.
Qed.

(** X3: the two ends of the scale.  With the threshold at
    [LOGGING_LEVEL_ALL] no severity an [unsigned short] can hold is dropped.
    With the threshold at [LOGGING_LEVEL_NONE] every severity from 1 up is
    dropped, but severity 0 is still written. *)
Theorem threshold_all_and_none module level message arglist w :
  is_ushort level -> ready w ->
  forall stamp,
    next_stamp malloc_result localtime_result w = Some stamp ->
    (exists w',
       (logging_set_level LOGGING_LEVEL_ALL;;
        logging_log vformat malloc_result localtime_result module level
                    message arglist) w = Ok tt w' ∧
       written (_destination w) (trace w') =
       written (_destination w) (trace w) +:+
       log_line vformat stamp module level message arglist) ∧
    (1 <= level ->
     (logging_set_level LOGGING_LEVEL_NONE;;
      logging_log vformat malloc_result localtime_result module level
                  message arglist) w
     = Ok tt (with_level LOGGING_LEVEL_NONE w)) ∧
    (level = 0 ->
     exists w',
       (logging_set_level LOGGING_LEVEL_NONE;;
        logging_log vformat malloc_result localtime_result module level
                    message arglist) w = Ok tt w' ∧
       written (_destination w) (trace w') =
       written (_destination w) (trace w) +:+
       log_line vformat stamp module level message arglist).
Proof.
  intros [Hlo Hhi] Hr stamp Hs.
  split; [| split].
  - destruct (logging_log_written module level message arglist
                (with_level LOGGING_LEVEL_ALL w) stamp Hhi Hr Hs)
      as (w' & Hrun & _ & _ & _ & _ & Hout).
    exists w'. split; [exact Hrun |].
    rewrite (Hout (_destination w)). simpl. by rewrite decide_True.
  - intros H1.
    apply (logging_log_dropped _ _ _ _ _ _ _
             (with_level LOGGING_LEVEL_NONE w)).
    simpl. unfold LOGGING_LEVEL_NONE. lia.
  - intros ->.
    destruct (logging_log_written module 0 message arglist
                (with_level LOGGING_LEVEL_NONE w) stamp
                ltac:(done) Hr Hs)
      as (w' & Hrun & _ & _ & _ & _ & Hout).
    exists w'. split; [exact Hrun |].
    rewrite (Hout (_destination w)). simpl. by rewrite decide_True.
Qed.

(** X4: [logging_set_timestamp_printed] decides the form of the next
    message.  With 0 the message has no timestamp and the call neither
    allocates nor reads the clock; with any other value the message carries
    the time read by that call. *)
Theorem set_timestamp_printed_toggles module level message arglist v w :
  level <= _level w -> ready w ->
  (v = 0 ->
   exists w',
     (logging_set_timestamp_printed v;;
      logging_log vformat malloc_result localtime_result module level
                  message arglist) w = Ok tt w' ∧
     nallocs w' = nallocs w ∧ ntimes w' = ntimes w ∧
     written (_destination w) (trace w') =
     written (_destination w) (trace w) +:+
     log_line vformat None module level message arglist) ∧
  (v ≠ 0 -> malloc_result (nallocs w) ≠ 0 ->
   forall t,
     localtime_result (ntimes w) = Some t ->
     exists w',
       (logging_set_timestamp_printed v;;
        logging_log vformat malloc_result localtime_result module level
                    message arglist) w = Ok tt w' ∧
       nallocs w' = S (nallocs w) ∧ ntimes w' = S (ntimes w) ∧
       written (_destination w) (trace w') =
       written (_destination w) (trace w) +:+
       log_line vformat (Some t) module level message arglist).
Proof.
  intros Hle Hr. split.
  - intros ->.
    destruct (logging_log_written module level message arglist
                (with_timestamp_printed 0 w) None Hle Hr eq_refl)
      as (w' & Hrun & _ & _ & Hna & Hnt & Hout).
    exists w'. split; [exact Hrun |].
    simpl in Hna, Hnt. rewrite Nat.add_0_r in Hna, Hnt.
    split; [done |]. split; [done |].
    rewrite (Hout (_destination w)). simpl. by rewrite decide_True.
  - intros Hv Hm t Ht.
    assert (Hs : next_stamp malloc_result localtime_result
                   (with_timestamp_printed v w) = Some (Some t)).
    { unfold next_stamp. simpl.
      by rewrite decide_True, decide_False, Ht by done. }
    destruct (logging_log_written module level message arglist
                (with_timestamp_printed v w) (Some t) Hle Hr Hs)
      as (w' & Hrun & _ & _ & Hna & Hnt & Hout).
    exists w'. split; [exact Hrun |].
    simpl in Hna, Hnt. rewrite Nat.add_1_r in Hna, Hnt.
    split; [done |]. split; [done |].
    rewrite (Hout (_destination w)). simpl. by rewrite decide_True.
Qed.

(** X5: [logging_set_destination] redirects the next message: with a
    non-null stream the message goes to that stream and to no other, the
    previous destination included; with a null pointer it still goes to the
    previous destination. *)
Theorem set_destination_redirects module level message arglist d w stamp :
  level <= _level w -> ready w ->
  next_stamp malloc_result localtime_result w = Some stamp ->
  exists w',
    (logging_set_destination d;;
     logging_log vformat malloc_result localtime_result module level
                 message arglist) w = Ok tt w' ∧
    forall f,
      written f (trace w') =
      written f (trace w) +:+
      (if decide (f = if decide (d = NULL) then _destination w else d)
       then log_line vformat stamp module level message arglist
       else EmptyString).
Proof.
  intros Hle [Hd Hm] Hs.
  destruct (decide (d = NULL)) as [->|Hnn].
  - destruct (logging_log_written module level message arglist w stamp
                Hle (conj Hd Hm) Hs) as (w' & Hrun & _ & _ & _ & _ & Hout).
    by exists w'.
  - destruct (logging_log_written module level message arglist
                (with_destination d w) stamp Hle (conj Hnn Hm) Hs)
      as (w' & Hrun & _ & _ & _ & _ & Hout).
    exists w'. split; [| exact Hout].
    unfold logging_set_destination, mbind, M_bind, bind, modify.
    by rewrite decide_True.
Qed.

End Configuration.

(** ** The handoff as a whole *)

Section Handoff.
Variable vformat : string -> va_list -> string.
Variable malloc_result : nat -> Z.
Variable localtime_result : nat -> option tm.

Lemma next_stamp_after_log w stamp evs :
  next_stamp malloc_result localtime_result (after_log w stamp evs)
  = next_stamp malloc_result localtime_result (after_log w stamp []).
Proof. reflexivity. Qed.

(** X6: a complete handoff.  When the severity passes the threshold,
    [logging_aquire_fd], one write of [text] through the returned handle and
    [logging_release_fd] with the same severity return with the mutex free
    again and the configuration untouched, and the destination has received
    the opening frame, then [text], then the closing frame, and nothing
    else. *)
Theorem handoff_brackets_text level text w stamp1 stamp2 :
  level <= _level w -> ready w ->
  next_stamp malloc_result localtime_result w = Some stamp1 ->
  next_stamp malloc_result localtime_result (after_log w stamp1 [])
  = Some stamp2 ->
  exists w',
    (fd ← logging_aquire_fd vformat malloc_result localtime_result level;
     fprintf fd text;;
     logging_release_fd vformat malloc_result localtime_result level) w
    = Ok tt w' ∧
    ready w' ∧ same_config w w' ∧
    written (_destination w) (trace w') =
    written (_destination w) (trace w) +:+
    log_line vformat stamp1 "Logging" level
      "*** External logging started..." [] +:+
    text +:+
    log_line vformat stamp2 "Logging" level
      "*** External logging ended..." [].
Proof.
  intros Hle [Hd Hm] Hs1 Hs2.
  unfold mbind at 1 2, M_bind, bind.
  rewrite (logging_aquire_fd_passes _ _ _ _ _ stamp1) by done.
  unfold fprintf. rewrite decide_False by done.
  match goal with
  | |- context [logging_release_fd _ _ _ _ ?x] => set (w2 := x)
  end.
  assert (Hheld : mutexes w2 !! print_mutex w2 = Some Locked)
    by apply lookup_insert_eq.
  rewrite (logging_release_fd_passes _ _ _ _ _ stamp2) by done.
  eexists. split; [reflexivity |].
  split; [split; [done |] |].
  { simpl. rewrite insert_insert_eq. apply lookup_insert_eq. }
  split; [by repeat split |].
  simpl. rewrite !written_app, !written_log_events. simpl.
  rewrite decide_True by done.
  by rewrite !append_empty_r, !append_assoc.
Qed.

Lemma logging_aquire_fd_blocked level w :
  level <= _level w ->
  mutexes w !! print_mutex w = Some Locked ->
  logging_aquire_fd vformat malloc_result localtime_result level w = Blocked.
Proof.
  intros Hle Hm. unfold logging_aquire_fd, mbind, M_bind, bind, gets.
  rewrite (proj2 (Z.leb_le _ _) Hle).
  by rewrite logging_log_blocked.
Qed.

(** X7: while a handoff is open the mutex is held, so for the thread that
    opened it a message that passes the threshold, or a second
    [logging_aquire_fd] that passes it, waits on the mutex and never
    returns; a message above the threshold is dropped as usual. *)
Theorem handoff_blocks_logging level w stamp level' module message arglist :
  level <= _level w -> ready w ->
  next_stamp malloc_result localtime_result w = Some stamp ->
  (level' <= _level w ->
   (logging_aquire_fd vformat malloc_result localtime_result level;;
    logging_log vformat malloc_result localtime_result module level'
                message arglist) w = Blocked ∧
   (logging_aquire_fd vformat malloc_result localtime_result level;;
    logging_aquire_fd vformat malloc_result localtime_result level') w
   = Blocked) ∧
  (_level w < level' ->
   exists w',
     logging_aquire_fd vformat malloc_result localtime_result level w
     = Ok (_destination w) w' ∧
     (logging_aquire_fd vformat malloc_result localtime_result level;;
      logging_log vformat malloc_result localtime_result module level'
                  message arglist) w = Ok tt w').
Proof.
  intros Hle Hr Hs. unfold mbind, M_bind, bind.
  rewrite (logging_aquire_fd_passes _ _ _ _ _ stamp) by done.
  match goal with
  | |- context [logging_log _ _ _ _ _ _ _ ?x] => set (w1 := x)
  end.
  assert (Hheld : mutexes w1 !! print_mutex w1 = Some Locked)
    by apply lookup_insert_eq.
  split.
  - intros Hle'. split.
    + by apply logging_log_blocked.
    + by apply logging_aquire_fd_blocked.
  - intros Hlt. exists w1. split; [done |].
    by apply logging_log_dropped.
Qed.

Lemma logging_aquire_fd_dropped level w :
  _level w < level ->
  logging_aquire_fd vformat malloc_result localtime_result level w
  = Ok NULL w.
Proof.
  intros Hlt. unfold logging_aquire_fd, mbind, M_bind, bind, gets.
  by rewrite (proj2 (Z.leb_gt _ _) Hlt).
Qed.

Lemma logging_aquire_fd_no_mutex level w :
  level <= _level w ->
  mutexes w !! print_mutex w = None ->
  logging_aquire_fd vformat malloc_result localtime_result level w
  = Undefined.
Proof.
  intros Hle Hm. unfold logging_aquire_fd, mbind, M_bind, bind, gets.
  rewrite (proj2 (Z.leb_le _ _) Hle).
  by rewrite logging_log_no_mutex.
Qed.

Lemma logging_release_fd_not_held level w :
  mutexes w !! print_mutex w ≠ Some Locked ->
  logging_release_fd vformat malloc_result localtime_result level w
  = Undefined.
Proof.
  intros Hm.
  unfold logging_release_fd, mbind, M_bind, bind, gets, pthread_mutex_unlock.
  by destruct (mutexes w !! print_mutex w) as [[|]|].
Qed.

(** X8: [logging_release_fd] on a mutex that is not held has no defined
    behaviour; in particular after a [logging_aquire_fd] that returned the
    null pointer, as the comment of [logging_aquire_fd] warns. *)
Theorem release_without_acquire level w :
  mutexes w !! print_mutex w ≠ Some Locked ->
  logging_release_fd vformat malloc_result localtime_result level w
  = Undefined ∧
  (_level w < level ->
   (fd ← logging_aquire_fd vformat malloc_result localtime_result level;
    logging_release_fd vformat malloc_result localtime_result level) w
   = Undefined).
Proof.
  intros Hm. split; [by apply logging_release_fd_not_held |].
  intros Hlt. unfold mbind at 1, M_bind, bind.
  rewrite logging_aquire_fd_dropped by done.
  by apply logging_release_fd_not_held.
Qed.

(** X9: before [logging_init].  The static initialisers leave the threshold
    at 0, the destination null and no mutex: every message of severity 1 or
    more is dropped without a trace and [logging_aquire_fd] returns the null
    pointer, whereas a message of severity 0, which passes the threshold,
    reaches the missing mutex and has no defined behaviour. *)
Theorem calls_before_init level module message arglist :
  (1 <= level ->
   logging_log vformat malloc_result localtime_result module level message
               arglist initial_world = Ok tt initial_world ∧
   logging_aquire_fd vformat malloc_result localtime_result level
     initial_world = Ok NULL initial_world) ∧
  (level <= 0 ->
   logging_log vformat malloc_result localtime_result module level message
               arglist initial_world = Undefined ∧
   logging_aquire_fd vformat malloc_result localtime_result level
     initial_world = Undefined) ∧
  logging_get_destination initial_world = Ok NULL initial_world ∧
  logging_get_level initial_world = Ok 0 initial_world.
Proof.
  split; [| split; [| done]].
  - intros H1.
    split; [apply logging_log_dropped | apply logging_aquire_fd_dropped];
      simpl; lia.
  - intros H0.
    split; [apply logging_log_no_mutex | apply logging_aquire_fd_no_mutex];
      done.
Qed.

End Handoff.

(** ** Shutdown *)

Lemma logging_free_ok (w : world) :
  mutexes w !! print_mutex w = Some Unlocked ->
  logging_free w
  = Ok (if decide (_destination w ≠ NULL ∧ _destination w ≠ stdout ∧
                   _destination w ≠ stderr)
        then [_destination w] else [])
       (with_mutexes (delete (print_mutex w) (mutexes w)) w).
Proof.
  intros Hm.
  unfold logging_free, fclose, pthread_mutex_destroy, free, mbind, M_bind,
    bind, gets, mret, M_ret, ret.
  destruct (decide (_destination w ≠ NULL ∧ _destination w ≠ stdout ∧
                    _destination w ≠ stderr)) as [(Hd & _ & _)|_].
  - rewrite decide_False by done. by rewrite Hm.
  - by rewrite Hm.
Qed.

Lemma logging_free_not_free (w : world) :
  mutexes w !! print_mutex w ≠ Some Unlocked ->
  logging_free w = Undefined.
Proof.
  intros Hm.
  unfold logging_free, fclose, pthread_mutex_destroy, free, mbind, M_bind,
    bind, gets, mret, M_ret, ret.
  destruct (decide (_destination w ≠ NULL ∧ _destination w ≠ stdout ∧
                    _destination w ≠ stderr)) as [(Hd & _ & _)|_].
  - rewrite decide_False by done.
    by destruct (mutexes w !! print_mutex w) as [[|]|].
  - by destruct (mutexes w !! print_mutex w) as [[|]|].
Qed.

(** X10: [logging_free] on a logger whose mutex is free closes the
    destination exactly when it is neither null nor one of the two standard
    streams, and closes nothing else; it writes nothing, leaves the four
    variables as they are (so [print_mutex] keeps pointing at the destroyed
    object) and removes the mutex. *)
Theorem logging_free_closes (w : world) :
  mutexes w !! print_mutex w = Some Unlocked ->
  exists closed w',
    logging_free w = Ok closed w' ∧
    (forall f,
       f ∈ closed <->
       f = _destination w ∧ f ≠ NULL ∧ f ≠ stdout ∧ f ≠ stderr) ∧
    (length closed <= 1)%nat ∧
    same_config w w' ∧ trace w' = trace w ∧
    mutexes w' !! print_mutex w' = None ∧
    forall p, p ≠ print_mutex w -> mutexes w' !! p = mutexes w !! p.
Proof.
  intros Hm. eexists _, _. split; [by apply logging_free_ok |].
  split; [| split; [| split; [by repeat split |]; split; [done |]; split]].
  - intros f. case_decide as Hd.
    + rewrite list_elem_of_singleton. split; [by intros -> |]. by intros [-> _].
    + rewrite elem_of_nil. split; [done |]. intros [-> ?]. tauto.
  - case_decide; simpl; lia.
  - simpl. apply lookup_delete_eq.
  - intros p Hp. simpl. by apply lookup_delete_ne.
Qed.

(** X11: [logging_free] has no defined behaviour unless the mutex exists
    and is free: not while a handoff is open (the mutex is held), not before
    [logging_init], and never a second time. *)
Theorem logging_free_misuse (w : world) :
  (mutexes w !! print_mutex w = Some Locked -> logging_free w = Undefined) ∧
  (mutexes w !! print_mutex w = None -> logging_free w = Undefined) ∧
  (logging_free;; logging_free) w = Undefined ∧
  logging_free initial_world = Undefined.
Proof.
  split; [| split; [| split]].
  - intros Hm. apply logging_free_not_free. by rewrite Hm.
  - intros Hm. apply logging_free_not_free. by rewrite Hm.
  - unfold mbind at 1, M_bind, bind.
    destruct (mutexes w !! print_mutex w) as [[|]|] eqn:Hm.
    + rewrite logging_free_ok by done. apply logging_free_not_free.
      simpl. by rewrite lookup_delete_eq.
    + rewrite logging_free_not_free; [done | by rewrite Hm].
    + rewrite logging_free_not_free; [done | by rewrite Hm].
  - by apply logging_free_not_free.
Qed.

Section AfterFree.
Variable vformat : string -> va_list -> string.
Variable malloc_result : nat -> Z.
Variable localtime_result : nat -> option tm.

(** X12: after [logging_free] the logger must not be used: a message that
    passes the threshold, [logging_aquire_fd] at such a severity and
    [logging_release_fd] have no defined behaviour; only messages above the
    threshold are still dropped silently. *)
Theorem use_after_free level module message arglist w :
  mutexes w !! print_mutex w = Some Unlocked ->
  (level <= _level w ->
   (logging_free;;
    logging_log vformat malloc_result localtime_result module level message
                arglist) w = Undefined ∧
   (logging_free;;
    logging_aquire_fd vformat malloc_result localtime_result level) w
   = Undefined) ∧
  (logging_free;;
   logging_release_fd vformat malloc_result localtime_result level) w
  = Undefined ∧
  (_level w < level ->
   exists closed w',
     logging_free w = Ok closed w' ∧
     (logging_free;;
      logging_log vformat malloc_result localtime_result module level
                  message arglist) w = Ok tt w').
Proof.
  intros Hm. unfold mbind, M_bind, bind.
  rewrite logging_free_ok by done.
  set (w1 := with_mutexes _ w).
  assert (Hgone : mutexes w1 !! print_mutex w1 = None)
    by apply lookup_delete_eq.
  split; [| split].
  - intros Hle.
    split;
      [by apply logging_log_no_mutex | by apply logging_aquire_fd_no_mutex].
  - apply logging_release_fd_not_held. by rewrite Hgone.
  - intros Hlt. eexists _, w1. split; [reflexivity |].
    by apply logging_log_dropped.
Qed.

End AfterFree.

(** X13: a logger can be set up again after [logging_free]: when the
    allocation succeeds, [logging_free] followed by [logging_init] returns
    with the destination on standard output, the threshold at
    [LOGGING_LEVEL_ALL], a fresh free mutex behind [print_mutex] and nothing
    written; the timestamp flag is the one the first life left behind. *)
Theorem free_then_init malloc_result (w : world) :
  mutexes w !! print_mutex w = Some Unlocked ->
  malloc_result (nallocs w) ≠ 0 ->
  exists w',
    (logging_free;; logging_init malloc_result) w = Ok tt w' ∧
    ready w' ∧
    _destination w' = stdout ∧ _level w' = LOGGING_LEVEL_ALL ∧
    print_mutex w' = malloc_result (nallocs w) ∧
    _timestamp_printed w' = _timestamp_printed w ∧
    trace w' = trace w.
Proof.
  intros Hm Hp. unfold mbind at 1, M_bind, bind.
  rewrite logging_free_ok by done.
  rewrite logging_init_ok by done.
  eexists. split; [reflexivity |]. simpl.
  split; [split; [done | apply lookup_insert_eq] |]. done.
Qed.

(** X14: [logging_init] on a logger that is already set up does not release
    anything: the mutex the previous [logging_init] created is still there,
    neither destroyed nor freed, while [print_mutex] moves on to the new
    one; threshold and destination are back at their defaults. *)
Theorem init_twice_leaks malloc_result (w : world) :
  is_Some (mutexes w !! print_mutex w) ->
  malloc_result (nallocs w) ≠ 0 ->
  malloc_result (nallocs w) ≠ print_mutex w ->
  exists w',
    logging_init malloc_result w = Ok tt w' ∧
    print_mutex w' = malloc_result (nallocs w) ∧
    mutexes w' !! print_mutex w' = Some Unlocked ∧
    mutexes w' !! print_mutex w = mutexes w !! print_mutex w ∧
    _destination w' = stdout ∧ _level w' = LOGGING_LEVEL_ALL.
Proof.
  intros Hm Hp Hne. rewrite logging_init_ok by done.
  eexists. split; [reflexivity |]. simpl.
  split; [done |]. split; [apply lookup_insert_eq |].
  split; [by apply lookup_insert_ne | done].
Qed.

(** ** What every sequence of calls keeps *)

Lemma keeps_alive_refl w : keeps_alive w w.
Proof. by repeat split. Qed.

Lemma keeps_alive_trans w1 w2 w3 :
  keeps_alive w1 w2 -> keeps_alive w2 w3 -> keeps_alive w1 w3.
Proof.
  intros (Hp & Hm & Hd) (Hp' & Hm' & Hd').
  split; [congruence |]. split; [| by auto].
  intros p. by rewrite Hm', Hm.
Qed.

Lemma preserves_ret {A : Type} (a : A) : preserves (mret a).
Proof. intros w a' w' [= _ <-]. apply keeps_alive_refl. Qed.

Lemma preserves_gets {A : Type} (f : world -> A) : preserves (gets f).
Proof. intros w a' w' [= _ <-]. apply keeps_alive_refl. Qed.

Lemma preserves_bind {A B : Type} (m : M A) (k : A -> M B) :
  preserves m -> (forall a, preserves (k a)) -> preserves (m ≫= k).
Proof.
  intros Hm Hk w b w' Hrun. unfold mbind, M_bind, bind in Hrun.
  destruct (m w) as [a w1| | |] eqn:Hmw; try done.
  eapply keeps_alive_trans; [by eapply Hm | by eapply Hk].
Qed.

Lemma preserves_modify (f : world -> world) :
  (forall w, keeps_alive w (f w)) -> preserves (modify f).
Proof. intros Hf w a w' [= ?]. subst w'. apply Hf. Qed.

Lemma preserves_malloc malloc_result : preserves (malloc malloc_result).
Proof.
  intros w a w' Hrun. unfold malloc in Hrun. simplify_eq. by repeat split.
Qed.

Lemma preserves_free p : preserves (free p).
Proof. apply preserves_ret. Qed.

Lemma preserves_localtime_r localtime_result buf :
  preserves (localtime_r localtime_result buf).
Proof.
  intros w a w' Hrun. unfold localtime_r in Hrun.
  case_decide; [done |].
  destruct (localtime_result (ntimes w)); [| done].
  simplify_eq. by repeat split.
Qed.

Lemma preserves_fprintf f s : preserves (fprintf f s).
Proof.
  intros w a w' Hrun. unfold fprintf in Hrun.
  case_decide; [done |]. simplify_eq. by repeat split.
Qed.

Lemma preserves_fflush f : preserves (fflush f).
Proof. apply preserves_modify. intros w. by repeat split. Qed.

Lemma keeps_alive_relock w p s :
  is_Some (mutexes w !! p) ->
  forall q, is_Some (<[p := s]> (mutexes w) !! q) <-> is_Some (mutexes w !! q).
Proof.
  intros Hp q. destruct (decide (p = q)) as [<-|Hne].
  - rewrite lookup_insert_eq. split; [done | by eexists].
  - by rewrite lookup_insert_ne.
Qed.

Lemma preserves_pthread_mutex_lock p : preserves (pthread_mutex_lock p).
Proof.
  intros w a w' Hrun. unfold pthread_mutex_lock in Hrun.
  destruct (mutexes w !! p) as [[|]|] eqn:Hp; try done.
  simplify_eq. split; [done |]. split; [| done].
  simpl. apply keeps_alive_relock. by rewrite Hp.
Qed.

Lemma preserves_pthread_mutex_unlock p : preserves (pthread_mutex_unlock p).
Proof.
  intros w a w' Hrun. unfold pthread_mutex_unlock in Hrun.
  destruct (mutexes w !! p) as [[|]|] eqn:Hp; try done.
  simplify_eq. split; [done |]. split; [| done].
  simpl. apply keeps_alive_relock. by rewrite Hp.
Qed.

Create HintDb alive discriminated.

#[local] Hint Resolve preserves_ret preserves_gets preserves_malloc
  preserves_free preserves_localtime_r preserves_fprintf preserves_fflush
  preserves_pthread_mutex_lock preserves_pthread_mutex_unlock : alive.

(** Go through a function statement by statement. *)
Ltac preserves_steps :=
  repeat first
    [ apply preserves_bind; [| intros ?]
    | match goal with
      | |- preserves (if ?c then _ else _) => destruct c
      end
    | solve [eauto with alive] ].

Section Alive.
Variable vformat : string -> va_list -> string.
Variable malloc_result : nat -> Z.
Variable localtime_result : nat -> option tm.

Lemma preserves_timestamp_print :
  preserves (timestamp_print malloc_result localtime_result).
Proof. unfold timestamp_print. preserves_steps. Qed.

Lemma preserves_logging_log module level message arglist :
  preserves (logging_log vformat malloc_result localtime_result module level
               message arglist).
Proof.
  pose proof preserves_timestamp_print.
  unfold logging_log. preserves_steps.
Qed.

Lemma preserves_logging_aquire_fd level :
  preserves (logging_aquire_fd vformat malloc_result localtime_result level).
Proof.
  pose proof preserves_logging_log.
  unfold logging_aquire_fd. preserves_steps.
Qed.

Lemma preserves_logging_release_fd level :
  preserves (logging_release_fd vformat malloc_result localtime_result level).
Proof.
  pose proof preserves_logging_log.
  unfold logging_release_fd. preserves_steps.
Qed.

Lemma preserves_logging_set_destination destination :
  preserves (logging_set_destination destination).
Proof.
  unfold logging_set_destination. case_decide; [| apply preserves_ret].
  apply preserves_modify. intros w. by repeat split.
Qed.

Lemma preserves_run_api a :
  preserves (run_api vformat malloc_result localtime_result a).
Proof.
  pose proof preserves_logging_log.
  pose proof preserves_logging_aquire_fd.
  pose proof preserves_logging_release_fd.
  pose proof preserves_logging_set_destination.
  destruct a; simpl; unfold logging_set_level, logging_get_level,
    logging_get_destination, logging_set_timestamp_printed;
    preserves_steps;
    apply preserves_modify; intros w; by repeat split.
Qed.

Lemma preserves_run_calls l :
  preserves (run_calls vformat malloc_result localtime_result l).
Proof.
  induction l as [|a l IH]; simpl; [apply preserves_ret |].
  apply preserves_bind; [apply preserves_run_api | done].
Qed.

(** X15: once [logging_init] has returned, whatever sequence of calls of the
    other functions (setters, getters, messages, handoffs) returns, the
    destination is never null, [print_mutex] is still the non-null pointer
    [logging_init] stored, and the mutex object behind it still exists: no
    call other than [logging_free] can take the logger apart. *)
Theorem calls_keep_logger_alive l w0 w1 w' :
  logging_init malloc_result w0 = Ok tt w1 ->
  run_calls vformat malloc_result localtime_result l w1 = Ok tt w' ->
  initialised w' ∧
  print_mutex w' = print_mutex w1 ∧ print_mutex w' ≠ 0.
Proof.
  intros Hinit Hrun.
  destruct (decide (malloc_result (nallocs w0) = 0)) as [Hp|Hp].
  { by rewrite logging_init_null in Hinit. }
  rewrite logging_init_ok in Hinit by done. injection Hinit as <-.
  apply preserves_run_calls in Hrun as (Hpm & Hms & Hd).
  split; [split |].
  - by apply Hd.
  - rewrite Hpm. apply Hms. simpl. rewrite lookup_insert_eq. by eexists.
  - by rewrite Hpm.
Qed.

End Alive.

(** ** Pools of threads: exclusion, progress, termination *)

Section PoolLife.
Variable vformat : string -> va_list -> string.
Variable malloc_result : nat -> Z.
Variable localtime_result : nat -> option tm.

(** X16: mutual exclusion.  In every state a pool of logging threads can
    reach, at most one thread is between its [pthread_mutex_lock] and its
    [pthread_mutex_unlock], and the mutex is held exactly when there is
    one. *)
Theorem pool_mutual_exclusion w0 ts0 ts w :
  ready w0 ->
  Forall (fun t => t.2 = AtTest) ts0 ->
  rtc (pool_step vformat malloc_result localtime_result) (ts0, w0) (ts, w) ->
  (length (holders ts) <= 1)%nat ∧
  (holders ts = [] <-> mutexes w !! print_mutex w0 = Some Unlocked) ∧
  (holders ts ≠ [] <-> mutexes w !! print_mutex w0 = Some Locked).
Proof.
  intros Hr Hfresh Hrun.
  destruct (pool_inv_reachable _ _ _ _ _ _ _ Hr Hfresh Hrun)
    as (_ & emitted & partial & _ & _ & _ & Hh).
  unfold lock_state in Hh.
  destruct (holders ts) as [|t [|t' hs]]; [| | done].
  - destruct Hh as [-> _]. split; [simpl; lia |]. split; [done |].
    split; [done | intros [=]].
  - destruct Hh as [-> _]. split; [simpl; lia |]. split; [| done].
    split; [done | intros [=]].
Qed.

Lemma pool_rank_middle (l1 l2 : list thread) (t : thread) :
  pool_rank (l1 ++ t :: l2)
  = (pool_rank l1 + thread_rank t + pool_rank l2)%nat.
Proof.
  unfold pool_rank. rewrite map_app, sum_list_with_app. simpl. lia.
Qed.

Lemma thread_rank_fresh (cs : list call) :
  thread_rank (cs, AtTest) = (11 * length cs)%nat.
Proof. destruct cs; simpl; lia. Qed.


Lemma pool_step_rank ts w ts' w' :
  pool_step vformat malloc_result localtime_result (ts, w) (ts', w') ->
  (pool_rank ts' < pool_rank ts)%nat.
Proof.
  intros Hstep.
  inversion Hstep as [l1 c cs p l2 w1 t' w1' Hrun]; subst. clear Hstep.
  apply thread_step_inv in Hrun. rewrite !pool_rank_middle.
  assert (thread_rank t' < thread_rank (c :: cs, p))%nat; [| lia].
  pose proof (thread_rank_fresh cs) as Hcs.
  destruct p; simpl in *;
    repeat match goal with
           | H : _ ∧ _ |- _ => destruct H
           | H : exists _, _ |- _ => destruct H
           | H : context [decide ?P] |- _ => destruct (decide P)
           end; subst; simpl; lia.
Qed.


(** A pool that is not finished has a thread with a call to make. *)
Lemma unfinished_split (ts : list thread) :
  ~ Forall finished ts ->
  exists l1 c cs p l2, ts = l1 ++ (c :: cs, p) :: l2.
Proof.
  induction ts as [|[[|c cs] p] ts IH]; intros Hnot.
  - by destruct Hnot.
  - destruct IH as (l1 & c & cs & p' & l2 & ->).
    + intros Hall. apply Hnot. by constructor.
    + by exists (([], p) :: l1), c, cs, p', l2.
  - by exists [], c, cs, p, ts.
Qed.

Lemma finished_or_not (ts : list thread) :
  Forall finished ts ∨ ~ Forall finished ts.
Proof.
  induction ts as [|[[|c cs] p] ts [IH|IH]].
  - by left.
  - left. by constructor.
  - right. intros Hall. apply IH. by inversion Hall.
  - right. intros Hall. by inversion Hall.
  - right. intros Hall. by inversion Hall.
Qed.

(** A thread outside the critical section can step when the mutex is free;
    the thread inside it can always step when the destination is set and
    the timestamp, if wanted, can be read. *)
Lemma thread_step_possible c cs p w :
  _destination w ≠ NULL ->
  (_timestamp_printed w ≠ 0 ->
   malloc_result (nallocs w) ≠ 0 ∧ is_Some (localtime_result (ntimes w))) ->
  (if holds_lock (c :: cs, p)
   then mutexes w !! print_mutex w = Some Locked ∧
        (p = AtStamp -> _timestamp_printed w ≠ 0)
   else mutexes w !! print_mutex w = Some Unlocked) ->
  exists t' w',
    thread_step vformat malloc_result localtime_result (c :: cs, p) w
    = Ok t' w'.
Proof.
  intros Hd Hres Hm.
  unfold thread_step, log_step, timestamp_print, localtime_r, malloc, free,
    pthread_mutex_lock, pthread_mutex_unlock, fprintf, fflush, modify,
    mbind, M_bind, bind, gets, mret, M_ret, ret.
  destruct p; simpl in Hm |- *;
    rewrite ?(decide_False (P := _destination w = NULL)) by done;
    try (by eexists _, _).
  - destruct (c_level c <=? _level w); by eexists _, _.
  - rewrite Hm. by eexists _, _.
  - destruct (decide (_timestamp_printed w ≠ 0));
      rewrite ?(decide_False (P := _destination w = NULL)) by done;
      by eexists _, _.
  - destruct Hm as [_ Hflag].
    destruct (Hres (Hflag eq_refl)) as [Hna [t Ht]].
    rewrite decide_False by done. simpl. rewrite Ht. simpl.
    rewrite decide_False by done. by eexists _, _.
  - destruct Hm as [-> _]. by eexists _, _.
Qed.

(** A reachable pool that is not finished has a step. *)
Lemma unfinished_pool_steps w0 ts0 ts w :
  ready w0 ->
  Forall (fun t => t.2 = AtTest) ts0 ->
  (_timestamp_printed w0 ≠ 0 ->
   forall n, malloc_result n ≠ 0 ∧ is_Some (localtime_result n)) ->
  rtc (pool_step vformat malloc_result localtime_result) (ts0, w0) (ts, w) ->
  ~ Forall finished ts ->
  exists ts' w',
    pool_step vformat malloc_result localtime_result (ts, w) (ts', w').
Proof.
  intros Hr Hfresh Hres Hrun Hnot.
  destruct (pool_inv_reachable _ _ _ _ _ _ _ Hr Hfresh Hrun)
    as ((Hl & Hf & Hd & Hm) & emitted & partial & _ & _ & _ & Hh).
  destruct Hr as [Hdest _].
  assert (Hres' : _timestamp_printed w ≠ 0 ->
                  malloc_result (nallocs w) ≠ 0 ∧
                  is_Some (localtime_result (ntimes w))).
  { rewrite Hf. intros Hon.
    split; [apply (Hres Hon (nallocs w)) | apply (Hres Hon (ntimes w))]. }
  unfold lock_state in Hh.
  destruct (holders ts) as [|t [|t' hs]] eqn:Hholders; [| | done].
  - (* nobody inside: any unfinished thread steps *)
    destruct Hh as [Hfree _].
    destruct (unfinished_split ts Hnot) as (l1 & c & cs & p & l2 & ->).
    assert (Hout : holds_lock (c :: cs, p) = false).
    { rewrite holders_middle in Hholders.
      destruct (holds_lock (c :: cs, p)); [| done].
      by destruct (holders l1). }
    destruct (thread_step_possible c cs p w) as (t' & w' & Hstep).
    + by rewrite Hd.
    + done.
    + rewrite Hout. by rewrite Hm.
    + eexists _, _. by constructor.
  - (* one thread inside: it steps *)
    destruct Hh as (Hheld & stamp & Hfit & _).
    assert (Hin : t ∈ holders ts) by (rewrite Hholders; by left).
    apply list_elem_of_filter in Hin as [Hinside Hin].
    apply list_elem_of_split in Hin as (l1 & l2 & ->).
    destruct t as [[|c cs] p]; [done |].
    destruct (thread_step_possible c cs p w) as (t' & w' & Hstep).
    + by rewrite Hd.
    + done.
    + rewrite Hinside, Hm, Hf. split; [done |].
      intros ->. exact Hfit.
    + eexists _, _. by constructor.
Qed.

(** X18: no deadlock.  As long as the timestamp, if wanted, can always be
    read, a pool of logging threads that has not finished can always take a
    step: the threads never block one another for good. *)
Theorem pool_progress w0 ts0 ts w :
  ready w0 ->
  Forall (fun t => t.2 = AtTest) ts0 ->
  (_timestamp_printed w0 ≠ 0 ->
   forall n, malloc_result n ≠ 0 ∧ is_Some (localtime_result n)) ->
  rtc (pool_step vformat malloc_result localtime_result) (ts0, w0) (ts, w) ->
  ~ Forall finished ts ->
  exists ts' w',
    pool_step vformat malloc_result localtime_result (ts, w) (ts', w').
Proof. apply unfinished_pool_steps. Qed.

(** X19: every run can be completed.  From any state a pool of logging
    threads can reach there is a continuation in which all threads return,
    and at its end the destination holds, after what it held at the start,
    one whole message for every call that passes the threshold and nothing
    else. *)
Theorem pool_can_finish w0 ts0 ts w :
  ready w0 ->
  Forall (fun t => t.2 = AtTest) ts0 ->
  (_timestamp_printed w0 ≠ 0 ->
   forall n, malloc_result n ≠ 0 ∧ is_Some (localtime_result n)) ->
  rtc (pool_step vformat malloc_result localtime_result) (ts0, w0) (ts, w) ->
  exists ts' w' emitted,
    rtc (pool_step vformat malloc_result localtime_result) (ts, w) (ts', w') ∧
    Forall finished ts' ∧
    written (_destination w0) (trace w')
    = written (_destination w0) (trace w0) +:+
      concat_lines (map (call_line vformat) emitted) ∧
    map fst emitted
    ≡ₚ concat (map (fun t => filter (fun c => c_level c <= _level w0) t.1)
                  ts0).
Proof.
  intros Hr Hfresh Hres.
  remember (pool_rank ts) as k eqn:Hk. revert ts w Hk.
  induction k as [k IH] using lt_wf_ind. intros ts w -> Hrun.
  destruct (finished_or_not ts) as [Hfin|Hnot].
  - destruct (pool_inv_reachable _ _ _ _ _ _ _ Hr Hfresh Hrun)
      as (_ & emitted & partial & Hw & _ & Hperm & Hh).
    rewrite holders_finished in Hh by done. destruct Hh as [_ ->].
    exists ts, w, emitted. split; [apply rtc_refl |]. split; [done |].
    split; [by rewrite append_empty_r in Hw |].
    by rewrite <- all_owed_fresh, <- Hperm, all_owed_finished, app_nil_r.
  - destruct (unfinished_pool_steps w0 ts0 ts w Hr Hfresh Hres Hrun Hnot)
      as (ts1 & w1 & Hstep).
    destruct (IH (pool_rank ts1) (pool_step_rank _ _ _ _ Hstep) ts1 w1
                 eq_refl (rtc_r _ _ _ Hrun Hstep))
      as (ts' & w' & emitted & Hrest & Hfin & Hw & Hperm).
    exists ts', w', emitted. split; [by eapply rtc_l |]. done.
Qed.

End PoolLife.

(** ** One thread, many messages *)

Section InOrder.
Variable vformat : string -> va_list -> string.
Variable malloc_result : nat -> Z.
Variable localtime_result : nat -> option tm.

(** X20: the messages of one thread come out in the order of the calls.
    A sequence of [logging_log] calls on a ready logger returns with the
    logger ready again and the configuration unchanged, and the destination
    has received the messages of the calls that pass the threshold, whole
    and in call order, each stamped with its own clock reading when
    timestamps are on. *)
Theorem log_all_in_order cs w :
  ready w ->
  (_timestamp_printed w ≠ 0 ->
   forall n, malloc_result n ≠ 0 ∧ is_Some (localtime_result n)) ->
  exists w',
    log_all vformat malloc_result localtime_result cs w = Ok tt w' ∧
    ready w' ∧ same_config w w' ∧
    written (_destination w) (trace w')
    = written (_destination w) (trace w) +:+
      concat_lines
        (lines_of vformat localtime_result (_level w) (_timestamp_printed w)
           (ntimes w) cs).
Proof.
  revert w. induction cs as [|c cs IH]; intros w Hr Hres.
  - exists w. split; [done |]. split; [done |].
    split; [by repeat split |]. simpl. by rewrite append_empty_r.
  - cbn [log_all lines_of]. unfold mbind, M_bind, bind.
    destruct (decide (c_level c <= _level w)) as [Hle|Hgt].
    + assert (Hs : exists stamp,
                 next_stamp malloc_result localtime_result w = Some stamp ∧
                 (_timestamp_printed w ≠ 0 ->
                  stamp = localtime_result (ntimes w) ∧ is_Some stamp) ∧
                 (_timestamp_printed w = 0 -> stamp = None)).
      { unfold next_stamp.
        destruct (decide (_timestamp_printed w ≠ 0)) as [Hon|Hoff].
        - destruct (Hres Hon (nallocs w)) as [Hna _].
          destruct (Hres Hon (ntimes w)) as [_ [t Ht]].
          rewrite decide_False, Ht by done.
          exists (Some t). by repeat split.
        - exists None. split; [done |]. split; [done | done]. }
      destruct Hs as (stamp & Hs & Hon & Hoff).
      destruct (logging_log_written vformat malloc_result localtime_result
                  (c_module c) (c_level c) (c_message c) (c_arglist c)
                  w stamp Hle Hr Hs)
        as (w1 & Hrun & Hc & Hms & _ & Hnt & Hout).
      rewrite Hrun.
      pose proof Hc as (Hl1 & Hf1 & Hd1 & Hm1).
      destruct (IH w1) as (w' & Hrest & Hr' & Hc' & Hw').
      { destruct Hr as [Hd Hm]. split; [by rewrite Hd1 |].
        by rewrite Hms, Hm1. }
      { by rewrite Hf1. }
      exists w'. split; [exact Hrest |]. split; [exact Hr' |].
      split; [by eapply same_config_trans |].
      rewrite Hl1, Hf1, Hd1 in Hw'. rewrite Hw', (Hout (_destination w)).
      rewrite decide_True by done. rewrite append_assoc. f_equal.
      destruct (decide (_timestamp_printed w ≠ 0)) as [Hflag|Hflag].
      * destruct (Hon Hflag) as [-> [t Ht]]. rewrite Ht in Hnt |- *.
        rewrite Hnt, Nat.add_1_r. reflexivity.
      * rewrite (Hoff ltac:(by destruct (decide (_timestamp_printed w = 0))))
          in Hnt |- *.
        rewrite Hnt, Nat.add_0_r. reflexivity.
    + rewrite logging_log_dropped by lia.
      destruct (IH w Hr Hres) as (w' & Hrest & Hr' & Hc' & Hw').
      by exists w'.
Qed.

End InOrder.

(** ** The further properties at concrete inputs *)

Lemma sample_world_ready : ready sample_world.
Proof. split; [discriminate | reflexivity]. Qed.

Lemma sample_resources (n : nat) :
  sample_malloc n ≠ 0 ∧ is_Some (sample_time n).
Proof. split; [unfold sample_malloc; lia | by eexists]. Qed.

Lemma set_level_gates_witness :
  (logging_set_level LOGGING_LEVEL_WARNING;;
   logging_log sample_format sample_malloc sample_time "Net"
     LOGGING_LEVEL_DEBUG "retry %d" [VInt 3]) sample_world
  = Ok tt (with_level LOGGING_LEVEL_WARNING sample_world) ∧
  exists w',
    (logging_set_level LOGGING_LEVEL_WARNING;;
     logging_log sample_format sample_malloc sample_time "Net"
       LOGGING_LEVEL_ERROR "conn failed: %s" [VStr "timeout"]) sample_world
    = Ok tt w' ∧
    written stdout (trace w')
    = "[100:ERROR@02.10.2026/03:04:05] Net: conn failed: timeout" +:+ NL.
Proof.
  destruct (set_level_gates sample_format sample_malloc sample_time "Net"
              LOGGING_LEVEL_DEBUG "retry %d" [VInt 3] LOGGING_LEVEL_WARNING
              sample_world) as (_ & Hdrop & _).
  destruct (set_level_gates sample_format sample_malloc sample_time "Net"
              LOGGING_LEVEL_ERROR "conn failed: %s" [VStr "timeout"]
              LOGGING_LEVEL_WARNING sample_world) as (_ & _ & Hpass).
  split; [apply Hdrop; reflexivity |].
  destruct (Hpass ltac:(vm_compute; congruence) sample_world_ready
                  (sample_time O) eq_refl) as (w' & Hrun & _ & Hout).
  exists w'. split; [exact Hrun | exact Hout].
Defined.

Lemma threshold_all_and_none_witness :
  (logging_set_level LOGGING_LEVEL_NONE;;
   logging_log sample_format sample_malloc sample_time "Net" 1 "lost" [])
    sample_world
  = Ok tt (with_level LOGGING_LEVEL_NONE sample_world) ∧
  exists w',
    (logging_set_level LOGGING_LEVEL_NONE;;
     logging_log sample_format sample_malloc sample_time "Net" 0 "kept" [])
      sample_world = Ok tt w' ∧
    written stdout (trace w')
    = "[0:CRITICAL@02.10.2026/03:04:05] Net: kept" +:+ NL.
Proof.
  destruct (threshold_all_and_none sample_format sample_malloc sample_time
              "Net" 1 "lost" [] sample_world
              ltac:(unfold is_ushort; lia) sample_world_ready
              (sample_time O) eq_refl) as (_ & Hdrop & _).
  destruct (threshold_all_and_none sample_format sample_malloc sample_time
              "Net" 0 "kept" [] sample_world
              ltac:(unfold is_ushort; lia) sample_world_ready
              (sample_time O) eq_refl) as (_ & _ & Hzero).
  split; [apply Hdrop; lia |].
  destruct (Hzero eq_refl) as (w' & Hrun & Hout).
  exists w'. split; [exact Hrun | exact Hout].
Defined.

Lemma set_timestamp_printed_toggles_witness :
  (exists w',
     (logging_set_timestamp_printed 0;;
      logging_log sample_format sample_malloc sample_time "Net"
        LOGGING_LEVEL_ERROR "conn failed: %s" [VStr "timeout"]) sample_world
     = Ok tt w' ∧
     written stdout (trace w')
     = "[100:ERROR] Net: conn failed: timeout" +:+ NL) ∧
  exists w',
    (logging_set_timestamp_printed (-1);;
     logging_log sample_format sample_malloc sample_time "Net"
       LOGGING_LEVEL_ERROR "conn failed: %s" [VStr "timeout"]) sample_world
    = Ok tt w' ∧
    written stdout (trace w')
    = "[100:ERROR@02.10.2026/03:04:05] Net: conn failed: timeout" +:+ NL.
Proof.
  destruct (set_timestamp_printed_toggles sample_format sample_malloc
              sample_time "Net" LOGGING_LEVEL_ERROR "conn failed: %s"
              [VStr "timeout"] 0 sample_world
              ltac:(vm_compute; congruence) sample_world_ready)
    as (Hoff & _).
  destruct (set_timestamp_printed_toggles sample_format sample_malloc
              sample_time "Net" LOGGING_LEVEL_ERROR "conn failed: %s"
              [VStr "timeout"] (-1) sample_world
              ltac:(vm_compute; congruence) sample_world_ready)
    as (_ & Hon).
  destruct (Hoff eq_refl) as (w1 & Hrun1 & _ & _ & Hout1).
  destruct (Hon ltac:(discriminate) ltac:(discriminate) _ eq_refl)
    as (w2 & Hrun2 & _ & _ & Hout2).
  split; [exists w1; split; [exact Hrun1 | exact Hout1] |].
  exists w2. split; [exact Hrun2 | exact Hout2].
Defined.

Lemma set_destination_redirects_witness :
  exists w',
    (logging_set_destination stderr;;
     logging_log sample_format sample_malloc sample_time "Net"
       LOGGING_LEVEL_ERROR "conn failed: %s" [VStr "timeout"]) sample_world
    = Ok tt w' ∧
    written stderr (trace w')
    = "[100:ERROR@02.10.2026/03:04:05] Net: conn failed: timeout" +:+ NL ∧
    written stdout (trace w') = EmptyString.
Proof.
  destruct (set_destination_redirects sample_format sample_malloc sample_time
              "Net" LOGGING_LEVEL_ERROR "conn failed: %s" [VStr "timeout"]
              stderr sample_world (sample_time O)
              ltac:(vm_compute; congruence) sample_world_ready eq_refl)
    as (w' & Hrun & Hout).
  exists w'. split; [exact Hrun |].
  split; [exact (Hout stderr) | exact (Hout stdout)].
Defined.

Lemma handoff_brackets_text_witness :
  exists w',
    (fd ← logging_aquire_fd sample_format sample_malloc sample_time
            LOGGING_LEVEL_INFO;
     fprintf fd "X";;
     logging_release_fd sample_format sample_malloc sample_time
       LOGGING_LEVEL_INFO) sample_world = Ok tt w' ∧
    ready w' ∧
    written stdout (trace w')
    = ("[10000:INFO@02.10.2026/03:04:05] Logging: " +:+
       "*** External logging started..." +:+ NL) +:+
      "X" +:+
      ("[10000:INFO@02.10.2026/03:04:05] Logging: " +:+
       "*** External logging ended..." +:+ NL).
Proof.
  destruct (handoff_brackets_text sample_format sample_malloc sample_time
              LOGGING_LEVEL_INFO "X" sample_world
              (sample_time O) (sample_time 1)
              ltac:(vm_compute; congruence) sample_world_ready
              eq_refl eq_refl)
    as (w' & Hrun & Hr & _ & Hout).
  exists w'. split; [exact Hrun |]. split; [exact Hr | exact Hout].
Defined.

Lemma handoff_blocks_logging_witness :
  (logging_aquire_fd sample_format sample_malloc sample_time
     LOGGING_LEVEL_INFO;;
   logging_log sample_format sample_malloc sample_time "Net"
     LOGGING_LEVEL_ERROR "conn failed: %s" [VStr "timeout"]) sample_world
  = Blocked ∧
  exists w',
    (logging_aquire_fd sample_format sample_malloc sample_time
       LOGGING_LEVEL_INFO;;
     logging_log sample_format sample_malloc sample_time "Net"
       LOGGING_LEVEL_ERROR "conn failed: %s" [VStr "timeout"])
      (with_level LOGGING_LEVEL_INFO sample_world) = Blocked ∧
    (logging_aquire_fd sample_format sample_malloc sample_time
       LOGGING_LEVEL_INFO;;
     logging_log sample_format sample_malloc sample_time "Net"
       LOGGING_LEVEL_DEBUG "retry %d" [VInt 3])
      (with_level LOGGING_LEVEL_INFO sample_world) = Ok tt w'.
Proof.
  destruct (handoff_blocks_logging sample_format sample_malloc sample_time
              LOGGING_LEVEL_INFO sample_world (sample_time O)
              LOGGING_LEVEL_ERROR "Net" "conn failed: %s" [VStr "timeout"]
              ltac:(vm_compute; congruence) sample_world_ready eq_refl)
    as (Hblock & _).
  destruct (handoff_blocks_logging sample_format sample_malloc sample_time
              LOGGING_LEVEL_INFO (with_level LOGGING_LEVEL_INFO sample_world)
              (sample_time O)
              LOGGING_LEVEL_ERROR "Net" "conn failed: %s" [VStr "timeout"]
              ltac:(vm_compute; congruence) sample_world_ready eq_refl)
    as (Hblock' & _).
  destruct (handoff_blocks_logging sample_format sample_malloc sample_time
              LOGGING_LEVEL_INFO (with_level LOGGING_LEVEL_INFO sample_world)
              (sample_time O)
              LOGGING_LEVEL_DEBUG "Net" "retry %d" [VInt 3]
              ltac:(vm_compute; congruence) sample_world_ready eq_refl)
    as (_ & Hdrop).
  split; [apply Hblock; vm_compute; congruence |].
  destruct (Hdrop ltac:(reflexivity)) as (w' & _ & Hrun).
  exists w'. split; [| exact Hrun].
  apply Hblock'. vm_compute. congruence.
Defined.

Lemma release_without_acquire_witness :
  logging_release_fd sample_format sample_malloc sample_time
    LOGGING_LEVEL_INFO sample_world = Undefined ∧
  (fd ← logging_aquire_fd sample_format sample_malloc sample_time
          LOGGING_LEVEL_INFO;
   logging_release_fd sample_format sample_malloc sample_time
     LOGGING_LEVEL_INFO) (with_level LOGGING_LEVEL_WARNING sample_world)
  = Undefined.
Proof.
  split.
  - apply (release_without_acquire sample_format sample_malloc sample_time
             LOGGING_LEVEL_INFO sample_world). discriminate.
  - apply (release_without_acquire sample_format sample_malloc sample_time
             LOGGING_LEVEL_INFO
             (with_level LOGGING_LEVEL_WARNING sample_world));
      [discriminate | reflexivity].
Defined.

Lemma calls_before_init_witness :
  logging_log sample_format sample_malloc sample_time "Net"
    LOGGING_LEVEL_ERROR "conn failed: %s" [VStr "timeout"] initial_world
  = Ok tt initial_world ∧
  logging_log sample_format sample_malloc sample_time "Net"
    LOGGING_LEVEL_NONE "conn failed: %s" [VStr "timeout"] initial_world
  = Undefined.
Proof.
  destruct (calls_before_init sample_format sample_malloc sample_time
              LOGGING_LEVEL_ERROR "Net" "conn failed: %s" [VStr "timeout"])
    as (Hdrop & _).
  destruct (calls_before_init sample_format sample_malloc sample_time
              LOGGING_LEVEL_NONE "Net" "conn failed: %s" [VStr "timeout"])
    as (_ & Hpass & _).
  split; [apply Hdrop; vm_compute; congruence |].
  apply Hpass. vm_compute. congruence.
Defined.

Lemma logging_free_closes_witness :
  (exists w', logging_free sample_world = Ok [] w') ∧
  exists w',
    logging_free (with_destination (stream 3) sample_world)
    = Ok [stream 3] w' ∧
    mutexes w' !! print_mutex w' = None.
Proof.
  destruct (logging_free_closes sample_world eq_refl)
    as (closed & w1 & Hrun1 & Hin1 & _).
  destruct (logging_free_closes (with_destination (stream 3) sample_world)
              eq_refl)
    as (closed2 & w2 & Hrun2 & Hin2 & _ & _ & _ & Hgone & _).
  split.
  - exists w1. rewrite Hrun1. f_equal.
    destruct closed as [|f closed]; [done |].
    destruct (proj1 (Hin1 f) ltac:(by left)) as (-> & _ & Hout & _).
    by destruct Hout.
  - exists w2. split; [| exact Hgone].
    vm_compute in Hrun2. injection Hrun2 as <- <-. reflexivity.
Defined.

Lemma logging_free_misuse_witness :
  logging_free (locked sample_world) = Undefined ∧
  logging_free initial_world = Undefined.
Proof.
  destruct (logging_free_misuse (locked sample_world)) as (Hheld & _).
  destruct (logging_free_misuse initial_world) as (_ & Hnone & _).
  split; [apply Hheld; reflexivity | apply Hnone; reflexivity].
Defined.

Lemma use_after_free_witness :
  (logging_free;;
   logging_log sample_format sample_malloc sample_time "Net"
     LOGGING_LEVEL_ERROR "conn failed: %s" [VStr "timeout"]) sample_world
  = Undefined ∧
  exists w',
    (logging_free;;
     logging_log sample_format sample_malloc sample_time "Net"
       LOGGING_LEVEL_DEBUG "retry %d" [VInt 3])
      (with_level LOGGING_LEVEL_WARNING sample_world) = Ok tt w'.
Proof.
  destruct (use_after_free sample_format sample_malloc sample_time
              LOGGING_LEVEL_ERROR "Net" "conn failed: %s" [VStr "timeout"]
              sample_world eq_refl) as (Hpass & _).
  destruct (use_after_free sample_format sample_malloc sample_time
              LOGGING_LEVEL_DEBUG "Net" "retry %d" [VInt 3]
              (with_level LOGGING_LEVEL_WARNING sample_world) eq_refl)
    as (_ & _ & Hdrop).
  split; [apply Hpass; vm_compute; congruence |].
  destruct (Hdrop ltac:(reflexivity)) as (closed & w' & _ & Hrun).
  exists w'. exact Hrun.
Defined.

Lemma free_then_init_witness :
  exists w',
    (logging_free;; logging_init sample_malloc)
      (with_timestamp_printed 0 sample_world) = Ok tt w' ∧
    ready w' ∧ print_mutex w' = 4160 ∧ _timestamp_printed w' = 0.
Proof.
  destruct (free_then_init sample_malloc
              (with_timestamp_printed 0 sample_world)
              eq_refl ltac:(discriminate))
    as (w' & Hrun & Hr & _ & _ & Hp & Hf & _).
  exists w'. split; [exact Hrun |]. split; [exact Hr |].
  split; [exact Hp | exact Hf].
Defined.

Lemma init_twice_leaks_witness :
  exists w',
    logging_init sample_malloc sample_world = Ok tt w' ∧
    print_mutex w' = 4160 ∧
    mutexes w' !! 4096 = Some Unlocked.
Proof.
  destruct (init_twice_leaks sample_malloc sample_world
              ltac:(by eexists) ltac:(discriminate) ltac:(discriminate))
    as (w' & Hrun & Hp & _ & Hold & _).
  exists w'. split; [exact Hrun |]. split; [exact Hp | exact Hold].
Defined.

Lemma calls_keep_logger_alive_witness :
  exists w',
    run_calls sample_format sample_malloc sample_time
      [CallSetLevel LOGGING_LEVEL_WARNING;
       CallSetDestination NULL;
       CallLog (mk_call "Net" LOGGING_LEVEL_ERROR "conn failed: %s"
                  [VStr "timeout"]);
       CallAquireFd LOGGING_LEVEL_ERROR;
       CallReleaseFd LOGGING_LEVEL_ERROR] sample_world = Ok tt w' ∧
    initial_world ≠ w' ∧ initialised w' ∧ print_mutex w' = 4096.
Proof.
  destruct (run_calls sample_format sample_malloc sample_time
              [CallSetLevel LOGGING_LEVEL_WARNING;
               CallSetDestination NULL;
               CallLog (mk_call "Net" LOGGING_LEVEL_ERROR "conn failed: %s"
                          [VStr "timeout"]);
               CallAquireFd LOGGING_LEVEL_ERROR;
               CallReleaseFd LOGGING_LEVEL_ERROR] sample_world)
    as [[] w'| | |] eqn:Hrun; try (vm_compute in Hrun; discriminate).
  destruct (calls_keep_logger_alive sample_format sample_malloc sample_time
              _ initial_world sample_world w'
              ltac:(vm_compute; reflexivity) Hrun)
    as (Halive & Hp & _).
  exists w'. split; [reflexivity |].
  split; [| split; [exact Halive | exact Hp]].
  intros <-. destruct Halive as [Hd _]. by apply Hd.
Defined.

Lemma sample_pool_fresh : Forall (fun t : thread => t.2 = AtTest) sample_pool.
Proof. repeat constructor. Qed.

Lemma pool_mutual_exclusion_witness :
  exists ts w,
    rtc (pool_step sample_format sample_malloc sample_time)
        (sample_pool, sample_world) (ts, w) ∧
    length (holders ts) = 1%nat ∧
    mutexes w !! 4096 = Some Locked.
Proof.
  destruct (run_schedule sample_format sample_malloc sample_time
              [0; 0; 0]%nat sample_pool sample_world)
    as [[ts w]|] eqn:Hrun; [| vm_compute in Hrun; discriminate].
  pose proof (run_schedule_sound _ _ _ _ _ _ _ _ Hrun) as Hsteps.
  destruct (pool_mutual_exclusion sample_format sample_malloc sample_time
              sample_world sample_pool ts w
              sample_world_ready sample_pool_fresh Hsteps)
    as (_ & _ & Hheld).
  exists ts, w. split; [exact Hsteps |].
  vm_compute in Hrun. injection Hrun as <- <-.
  split; [reflexivity |].
  apply Hheld. discriminate.
Defined.


Lemma sample_pool_unfinished : ~ Forall finished sample_pool.
Proof. intros Hall. by inversion Hall. Qed.

Lemma pool_progress_witness :
  exists ts' w',
    pool_step sample_format sample_malloc sample_time
      (sample_pool, sample_world) (ts', w').
Proof.
  apply (pool_progress sample_format sample_malloc sample_time
           sample_world sample_pool sample_pool sample_world
           sample_world_ready sample_pool_fresh
           (fun _ => sample_resources)
           (rtc_refl _ _) sample_pool_unfinished).
Defined.

Lemma pool_can_finish_witness :
  exists ts' w' emitted,
    rtc (pool_step sample_format sample_malloc sample_time)
        (sample_pool, sample_world) (ts', w') ∧
    Forall finished ts' ∧
    written stdout (trace w')
    = concat_lines (map (call_line sample_format) emitted) ∧
    length emitted = 2%nat.
Proof.
  destruct (pool_can_finish sample_format sample_malloc sample_time
              sample_world sample_pool sample_pool sample_world
              sample_world_ready sample_pool_fresh
              (fun _ => sample_resources) (rtc_refl _ _))
    as (ts' & w' & emitted & Hrun & Hfin & Hw & Hperm).
  exists ts', w', emitted. split; [exact Hrun |]. split; [exact Hfin |].
  split; [exact Hw |].
  apply Permutation_length in Hperm. rewrite length_map in Hperm.
  exact Hperm.
Defined.

Lemma log_all_in_order_witness :
  exists w',
    log_all sample_format sample_malloc sample_time
      [mk_call "Net" LOGGING_LEVEL_ERROR "conn failed: %s" [VStr "timeout"];
       mk_call "Net" LOGGING_LEVEL_DEBUG "retry %d" [VInt 3];
       mk_call "Disk" LOGGING_LEVEL_WARNING "full" []]
      (with_level LOGGING_LEVEL_INFO sample_world) = Ok tt w' ∧
    written stdout (trace w')
    = ("[100:ERROR@02.10.2026/03:04:05] Net: conn failed: timeout" +:+ NL)
      +:+ ("[1000:WARNING@02.10.2026/03:04:05] Disk: full" +:+ NL).
Proof.
  destruct (log_all_in_order sample_format sample_malloc sample_time
              [mk_call "Net" LOGGING_LEVEL_ERROR "conn failed: %s"
                 [VStr "timeout"];
               mk_call "Net" LOGGING_LEVEL_DEBUG "retry %d" [VInt 3];
               mk_call "Disk" LOGGING_LEVEL_WARNING "full" []]
              (with_level LOGGING_LEVEL_INFO sample_world)
              sample_world_ready (fun _ => sample_resources))
    as (w' & Hrun & _ & _ & Hout).
  exists w'. split; [exact Hrun | exact Hout].
Defined.
